(** * Workbench panel: view mode, live folder sync and save feedback

    A shallow embedding of [app/components/workbench/Workbench.client.tsx].

    The component is a React function component over an external reactive
    store.  Its handlers are embedded as programs of a small resumption
    monad ([Prog]): reads and writes of the component state are ordinary
    steps, and the two awaited operations (the native directory picker and
    the store's asynchronous calls) are suspension points whose outcome is
    supplied by the environment.  The same programs are then run in two
    ways: to completion against a fixed environment ([exec], one call
    followed on its own), and by an event loop ([step]) in which user
    gestures, store publications and promise settlements interleave. *)

From Stdlib Require Import ZArith List Bool String Lia.
Import ListNotations.
Local Open Scope string_scope.
Local Open Scope list_scope.
Local Open Scope Z_scope.

(** ** Data *)

(** [WorkbenchViewType], the two values of the slider. *)
Inductive WorkbenchViewType : Type := code | preview.

Definition view_eqb (a b : WorkbenchViewType) : bool :=
  match a, b with
  | code, code | preview, preview => true
  | _, _ => false
  end.

(** A [FileSystemDirectoryHandle] is an object: it is always truthy and is
    compared by identity.  It is represented by a name. *)
Definition FileSystemDirectoryHandle : Type := string.

(** The store's file map; the component only hands it on. *)
Definition FileMap : Type := list (string * string).

(** An entry of the store's [previews] list; the component only looks at
    the length of the list. *)
Definition PreviewInfo : Type := string.

(** [React.MouseEvent]: an object, hence truthy when present. *)
Record MouseEvent : Type := { clientX : Z; clientY : Z }.

(** Values thrown or used as rejection reasons. *)
Inductive JsError : Type :=
| AbortError      (* the user dismissed the directory picker *)
| TypeError       (* [window.showDirectoryPicker] is not a function *)
| SyncError       (* the store's [syncFiles] rejected *)
| SaveError.      (* the store's [saveCurrentDocument] rejected *)

(** How an awaited promise settles. *)
Inductive Outcome (R : Type) : Type :=
| Resolved (r : R)
| Rejected (e : JsError).
Arguments Resolved {R} r.
Arguments Rejected {R} e.

(** How a call completes: normally, or with an exception (for an [async]
    function, a rejected promise). *)
Inductive Completion (A : Type) : Type :=
| Normal (a : A)
| Abrupt (e : JsError).
Arguments Normal {A} a.
Arguments Abrupt {A} e.

(** The store operations the component invokes. *)
Inductive StoreCall : Type :=
| setDocuments (fs : FileMap)
| setCurrentDocumentContent (content : string)
| setCurrentDocumentScrollPosition (scrollTop scrollLeft : Z)
| setSelectedFile (filePath : option string)
| saveCurrentDocument
| resetCurrentDocument
| syncFiles (h : FileSystemDirectoryHandle)
| exportProjectAsZip
| toggleTerminal (value : bool).

(** The store operations whose promise the component waits for. *)
Inductive AsyncStoreCall : Type :=
| AwaitSyncFiles (h : FileSystemDirectoryHandle)
| AwaitSaveCurrentDocument.

(** What the component does to the outside and to its own [useState]
    cells, in the order it does it. *)
Inductive Effect : Type :=
| SetIsSyncing (b : bool)
| SetLastSync (t : Z)
| SetIsSyncFeatureAvailable (b : bool)
| ShowDirectoryPicker
| Store (c : StoreCall)
| CurrentViewSet (v : WorkbenchViewType)
| ShowWorkbenchSet (b : bool)
| ConsoleLog (msg : string)
| ConsoleError (msg : string) (e : JsError)
| ToastError (msg : string)
| Uncaught (e : JsError).

(** The state a handler can read or write: the component's own cells
    ([useState], [useRef]), the store fields it subscribes to, the wall
    clock, and the trace of effects so far (oldest first). *)
Record State : Type := mkState {
  isSyncing : bool;
  lastSync : option Z;                 (* [number | false]; [None] is [false] *)
  isSyncFeatureAvailable : bool;
  directoryRef : option FileSystemDirectoryHandle;
  showWorkbench : bool;
  showTerminal : bool;
  currentView : WorkbenchViewType;
  previews : list PreviewInfo;
  files : FileMap;
  clock : Z;                           (* [new Date().getTime()] *)
  trace : list Effect
}.

Definition emit (e : Effect) (s : State) : State :=
  mkState (isSyncing s) (lastSync s) (isSyncFeatureAvailable s) (directoryRef s)
          (showWorkbench s) (showTerminal s) (currentView s) (previews s)
          (files s) (clock s) (trace s ++ [e]).

Definition with_isSyncing (b : bool) (s : State) : State :=
  mkState b (lastSync s) (isSyncFeatureAvailable s) (directoryRef s)
          (showWorkbench s) (showTerminal s) (currentView s) (previews s)
          (files s) (clock s) (trace s).

Definition with_lastSync (t : option Z) (s : State) : State :=
  mkState (isSyncing s) t (isSyncFeatureAvailable s) (directoryRef s)
          (showWorkbench s) (showTerminal s) (currentView s) (previews s)
          (files s) (clock s) (trace s).

Definition with_isSyncFeatureAvailable (b : bool) (s : State) : State :=
  mkState (isSyncing s) (lastSync s) b (directoryRef s)
          (showWorkbench s) (showTerminal s) (currentView s) (previews s)
          (files s) (clock s) (trace s).

Definition with_directoryRef (h : option FileSystemDirectoryHandle) (s : State) : State :=
  mkState (isSyncing s) (lastSync s) (isSyncFeatureAvailable s) h
          (showWorkbench s) (showTerminal s) (currentView s) (previews s)
          (files s) (clock s) (trace s).

Definition with_showWorkbench (b : bool) (s : State) : State :=
  mkState (isSyncing s) (lastSync s) (isSyncFeatureAvailable s) (directoryRef s)
          b (showTerminal s) (currentView s) (previews s)
          (files s) (clock s) (trace s).

Definition with_showTerminal (b : bool) (s : State) : State :=
  mkState (isSyncing s) (lastSync s) (isSyncFeatureAvailable s) (directoryRef s)
          (showWorkbench s) b (currentView s) (previews s)
          (files s) (clock s) (trace s).

Definition with_currentView (v : WorkbenchViewType) (s : State) : State :=
  mkState (isSyncing s) (lastSync s) (isSyncFeatureAvailable s) (directoryRef s)
          (showWorkbench s) (showTerminal s) v (previews s)
          (files s) (clock s) (trace s).

Definition with_previews (ps : list PreviewInfo) (s : State) : State :=
  mkState (isSyncing s) (lastSync s) (isSyncFeatureAvailable s) (directoryRef s)
          (showWorkbench s) (showTerminal s) (currentView s) ps
          (files s) (clock s) (trace s).

Definition with_files (fs : FileMap) (s : State) : State :=
  mkState (isSyncing s) (lastSync s) (isSyncFeatureAvailable s) (directoryRef s)
          (showWorkbench s) (showTerminal s) (currentView s) (previews s)
          fs (clock s) (trace s).

Definition with_clock (t : Z) (s : State) : State :=
  mkState (isSyncing s) (lastSync s) (isSyncFeatureAvailable s) (directoryRef s)
          (showWorkbench s) (showTerminal s) (currentView s) (previews s)
          (files s) t (trace s).

(** ** Handlers as resumptions *)

(** A handler body: it returns, throws, reads or writes the state, or
    waits for a promise and continues with its outcome. *)
Inductive Prog (A : Type) : Type :=
| Ret (a : A)
| Throw (e : JsError)
| Get (k : State -> Prog A)
| Put (f : State -> State) (k : Prog A)
| AwaitPicker (k : Outcome FileSystemDirectoryHandle -> Prog A)
| AwaitStore (c : AsyncStoreCall) (k : Outcome unit -> Prog A).
Arguments Ret {A} a.
Arguments Throw {A} e.
Arguments Get {A} k.
Arguments Put {A} f k.
Arguments AwaitPicker {A} k.
Arguments AwaitStore {A} c k.

Fixpoint bind {A B : Type} (p : Prog A) (f : A -> Prog B) : Prog B :=
  match p with
  | Ret a => f a
  | Throw e => Throw e
  | Get k => Get (fun s => bind (k s) f)
  | Put g k => Put g (bind k f)
  | AwaitPicker k => AwaitPicker (fun o => bind (k o) f)
  | AwaitStore c k => AwaitStore c (fun o => bind (k o) f)
  end.

Notation "x <- p ;; q" := (bind p (fun x => q))
  (at level 61, p at next level, right associativity).
Notation "p ;; q" := (bind p (fun _ => q))
  (at level 61, right associativity).

(** [try { p } catch (error) { h error }] *)
Fixpoint try_catch {A : Type} (p : Prog A) (h : JsError -> Prog A) : Prog A :=
  match p with
  | Ret a => Ret a
  | Throw e => h e
  | Get k => Get (fun s => try_catch (k s) h)
  | Put g k => Put g (try_catch k h)
  | AwaitPicker k => AwaitPicker (fun o => try_catch (k o) h)
  | AwaitStore c k => AwaitStore c (fun o => try_catch (k o) h)
  end.

(** [try { p } finally { fin }]: [fin] runs after [p] however [p]
    completes, and [p]'s completion is kept when [fin] completes normally. *)
Fixpoint try_finally {A : Type} (p : Prog A) (fin : Prog unit) : Prog A :=
  match p with
  | Ret a => fin ;; Ret a
  | Throw e => fin ;; Throw e
  | Get k => Get (fun s => try_finally (k s) fin)
  | Put g k => Put g (try_finally k fin)
  | AwaitPicker k => AwaitPicker (fun o => try_finally (k o) fin)
  | AwaitStore c k => AwaitStore c (fun o => try_finally (k o) fin)
  end.

Definition try_catch_finally {A : Type}
  (p : Prog A) (h : JsError -> Prog A) (fin : Prog unit) : Prog A :=
  try_finally (try_catch p h) fin.

(** [await promise]: the value of a fulfilled promise, the reason of a
    rejected one thrown at the [await]. *)
Definition settle {R : Type} (o : Outcome R) : Prog R :=
  match o with
  | Resolved r => Ret r
  | Rejected e => Throw e
  end.

Definition act (f : State -> State) : Prog unit := Put f (Ret tt).
Definition effect (e : Effect) : Prog unit := act (emit e).

(** *** Primitive operations *)

Definition setIsSyncing (b : bool) : Prog unit :=
  act (fun s => emit (SetIsSyncing b) (with_isSyncing b s)).

Definition setLastSync (t : Z) : Prog unit :=
  act (fun s => emit (SetLastSync t) (with_lastSync (Some t) s)).

Definition setIsSyncFeatureAvailable (b : bool) : Prog unit :=
  act (fun s => emit (SetIsSyncFeatureAvailable b) (with_isSyncFeatureAvailable b s)).

(** [new Date().getTime()] *)
Definition getTime : Prog Z := Get (fun s => Ret (clock s)).

(** [await window.showDirectoryPicker()] *)
Definition showDirectoryPicker : Prog FileSystemDirectoryHandle :=
  effect ShowDirectoryPicker ;; AwaitPicker settle.

(** A synchronous call of a store operation. *)
Definition store (c : StoreCall) : Prog unit := effect (Store c).

(** [await workbenchStore.syncFiles(h)] *)
Definition store_syncFiles (h : FileSystemDirectoryHandle) : Prog unit :=
  store (syncFiles h) ;; AwaitStore (AwaitSyncFiles h) settle.

(** [workbenchStore.currentView.set(view)] *)
Definition currentView_set (v : WorkbenchViewType) : Prog unit :=
  act (fun s => emit (CurrentViewSet v) (with_currentView v s)).

(** [workbenchStore.showWorkbench.set(b)] *)
Definition showWorkbench_set (b : bool) : Prog unit :=
  act (fun s => emit (ShowWorkbenchSet b) (with_showWorkbench b s)).

(** JavaScript truthiness of [T | undefined] for an object type [T]. *)
Definition truthy {T : Type} (x : option T) : bool :=
  match x with Some _ => true | None => false end.

(** ** The component's handlers *)

Definition setSelectedView (view : WorkbenchViewType) : Prog unit :=
  currentView_set view.

Definition handleExport : Prog unit :=
  effect (ConsoleLog "handle export") ;;
  store exportProjectAsZip.

Definition onEditorChange (content : string) : Prog unit :=
  store (setCurrentDocumentContent content).

Definition onEditorScroll (scrollTop scrollLeft : Z) : Prog unit :=
  store (setCurrentDocumentScrollPosition scrollTop scrollLeft).

Definition onFileSelect (filePath : option string) : Prog unit :=
  store (setSelectedFile filePath).

(** [saveCurrentDocument().catch(() => toast.error(...))]: the handler
    returns at once; the callback runs when the promise has settled. *)
Definition onFileSave : Prog unit :=
  store saveCurrentDocument ;;
  AwaitStore AwaitSaveCurrentDocument (fun o =>
    match o with
    | Resolved _ => Ret tt
    | Rejected _ => effect (ToastError "Failed to update file content")
    end).

Definition onFileReset : Prog unit :=
  store resetCurrentDocument.

Definition handleSyncFiles (e : option MouseEvent) : Prog unit :=
  Get (fun s =>
    if truthy (directoryRef s) || truthy e then
      setIsSyncing true ;;
      try_catch_finally
        (directoryHandle <-
           Get (fun s' =>
             match directoryRef s' with
             | Some h => Ret h
             | None => showDirectoryPicker
             end) ;;
         act (with_directoryRef (Some directoryHandle)) ;;
         store_syncFiles directoryHandle ;;
         now <- getTime ;;
         setLastSync now)
        (fun error => effect (ConsoleError "Error syncing files:" error))
        (setIsSyncing false)
    else Ret tt).

Definition onToggleTerminal : Prog unit :=
  Get (fun s => store (toggleTerminal (negb (showTerminal s)))).

Definition onClose : Prog unit :=
  showWorkbench_set false.

(** *** Effects ([useEffect]) *)

(** [useEffect(..., [])]: the capability probe, once after the first
    render.  [hasPicker] says whether [window.showDirectoryPicker] exists. *)
Definition probeEffect (hasPicker : bool) : Prog unit :=
  if hasPicker then setIsSyncFeatureAvailable true
  else setIsSyncFeatureAvailable false.

(** [computed(workbenchStore.previews, (previews) => previews.length > 0)] *)
Definition hasPreview (s : State) : bool :=
  (0 <? Z.of_nat (List.length (previews s))).

(** [useEffect(..., [hasPreview])]; the closure holds the rendered value
    of [hasPreview]. *)
Definition previewEffect (hasPreview : bool) : Prog unit :=
  if hasPreview then setSelectedView preview else Ret tt.

(** [useEffect(..., [files])]; the closure holds the rendered [files]. *)
Definition filesEffect (files : FileMap) : Prog unit :=
  store (setDocuments files) ;;
  handleSyncFiles None.

(** ** Rendering *)

Record WorkspaceProps : Type := {
  chatStarted : option bool;           (* [chatStarted?: boolean] *)
  isStreaming : option bool            (* [isStreaming?: boolean] *)
}.

(** The text of the sync button. *)
Inductive SyncLabel : Type :=
| LiveSyncBrowsers                     (* "Live Sync in Chrome, Edge, Opera" *)
| SyncingLabel                         (* "Syncing..." *)
| SyncedAgo (minutes : option Z) (remainingSeconds : Z)
                                       (* 'Synced ' + `${m}m ${s}s ago` *)
| SelectSyncFolder.                    (* 'Select sync folder' *)

(** Truthiness of [number | false]. *)
Definition truthy_number (x : option Z) : bool :=
  match x with
  | Some t => negb (t =? 0)
  | None => false
  end.

Definition syncLabel (s : State) : SyncLabel :=
  if isSyncFeatureAvailable s then
    if isSyncing s then SyncingLabel
    else
      match lastSync s with
      | Some t =>
          if truthy_number (lastSync s) then
            let seconds := (clock s - t) / 1000 in
            let minutes := seconds / 60 in
            let remainingSeconds := Z.rem seconds 60 in
            SyncedAgo (if 0 <? minutes then Some minutes else None) remainingSeconds
          else SelectSyncFolder
      | None => SelectSyncFolder
      end
  else LiveSyncBrowsers.

Inductive Variant : Type := closed | open.

(** Horizontal offset of a sliding view. *)
Inductive Offset : Type := AtZero | Minus100 | Plus100.

(** The part of the rendered panel that depends on state. *)
Record Panel : Type := {
  animate : Variant;
  slider_selected : WorkbenchViewType;
  sync_disabled : bool;
  sync_spinner : bool;
  sync_label : SyncLabel;
  editor_x : Offset;
  editor_isStreaming : option bool;
  editor_files : FileMap;
  preview_x : Offset
}.

(** What the component function returns. *)
Inductive ReactNode : Type :=
| NodeUndefined
| NodeBool (b : bool)
| NodeElement (p : Panel).

(** React puts nothing in the tree for [undefined] and for booleans. *)
Definition visible (n : ReactNode) : bool :=
  match n with
  | NodeElement _ => true
  | _ => false
  end.

Definition panel (props : WorkspaceProps) (s : State) : Panel :=
  {| animate := if showWorkbench s then open else closed;
     slider_selected := currentView s;
     sync_disabled := negb (isSyncFeatureAvailable s) || isSyncing s;
     sync_spinner := isSyncing s;
     sync_label := syncLabel s;
     editor_x := if view_eqb (currentView s) code then AtZero else Minus100;
     editor_isStreaming := isStreaming props;
     editor_files := files s;
     preview_x := if view_eqb (currentView s) preview then AtZero else Plus100 |}.

(** [return chatStarted && (<motion.div ...>)] *)
Definition render (props : WorkspaceProps) (s : State) : ReactNode :=
  match chatStarted props with
  | None => NodeUndefined
  | Some false => NodeBool false
  | Some true => NodeElement (panel props s)
  end.

(** ** One call followed to its end *)

(** What the outside answers to one call: how each awaited promise
    settles and how many milliseconds pass while it is pending. *)
Record Env : Type := {
  picker_outcome : Outcome FileSystemDirectoryHandle;
  picker_ms : N;
  store_outcome : AsyncStoreCall -> Outcome unit;
  store_ms : AsyncStoreCall -> N
}.

Definition elapse (ms : N) (s : State) : State :=
  with_clock (clock s + Z.of_N ms) s.

Fixpoint exec {A : Type} (env : Env) (p : Prog A) (s : State) : Completion A * State :=
  match p with
  | Ret a => (Normal a, s)
  | Throw e => (Abrupt e, s)
  | Get k => exec env (k s) s
  | Put f k => exec env k (f s)
  | AwaitPicker k => exec env (k (picker_outcome env)) (elapse (picker_ms env) s)
  | AwaitStore c k => exec env (k (store_outcome env c)) (elapse (store_ms env c) s)
  end.

(** ** The event loop *)

(** A mounted component: its props, its state, the value of [hasPreview]
    at the last commit (the dependency of the preview effect), and the
    calls suspended at an [await], oldest first. *)
Record World : Type := mkWorld {
  props : WorkspaceProps;
  comp : State;
  dep_hasPreview : bool;
  pending : list (Prog unit)
}.

Definition with_comp (s : State) (w : World) : World :=
  mkWorld (props w) s (dep_hasPreview w) (pending w).

(** Runs a program up to its first suspension point. *)
Fixpoint advance {A : Type} (p : Prog A) (s : State) : Prog A * State :=
  match p with
  | Get k => advance (k s) s
  | Put f k => advance k (f s)
  | _ => (p, s)
  end.

(** Starts (or resumes) a call: it runs until it ends or suspends. *)
Definition spawn (p : Prog unit) (w : World) : World :=
  let (r, s) := advance p (comp w) in
  match r with
  | Ret _ => with_comp s w
  | Throw e => with_comp (emit (Uncaught e) s) w
  | _ => mkWorld (props w) s (dep_hasPreview w) (pending w ++ [r])
  end.

(** After a render, the effects whose dependencies changed run in the
    order of their declaration.  [hasPreview] is a boolean and compared by
    value; [files] is an object and compared by identity, so every
    publication of a new file map counts as a change. *)
Definition commit (filesChanged : bool) (w : World) : World :=
  let hp := hasPreview (comp w) in
  let w1 :=
    if Bool.eqb hp (dep_hasPreview w) then w
    else spawn (previewEffect hp) (mkWorld (props w) (comp w) hp (pending w)) in
  if filesChanged then spawn (filesEffect (files (comp w1))) w1 else w1.

(** The store's fields at the time the component mounts. *)
Record StoreInit : Type := {
  init_showWorkbench : bool;
  init_showTerminal : bool;
  init_currentView : WorkbenchViewType;
  init_previews : list PreviewInfo;
  init_files : FileMap
}.

(** First render and the three effects after it. *)
Definition mount (p : WorkspaceProps) (hasPicker : bool) (st : StoreInit) (t0 : Z) : World :=
  let s0 := mkState false None false None
                    (init_showWorkbench st) (init_showTerminal st)
                    (init_currentView st) (init_previews st) (init_files st)
                    t0 [] in
  let w0 := mkWorld p s0 (hasPreview s0) [] in
  spawn (filesEffect (files s0))
    (spawn (previewEffect (hasPreview s0))
       (spawn (probeEffect hasPicker) w0)).

Inductive Settlement : Type :=
| PickerSettled (o : Outcome FileSystemDirectoryHandle)
| StoreSettled (o : Outcome unit).

Inductive Event : Type :=
(* user gestures on the rendered panel *)
| ClickSync (e : MouseEvent)
| SelectView (v : WorkbenchViewType)
| ClickExport
| ClickToggleTerminal
| ClickClose
| EditorChange (content : string)
| EditorScroll (scrollTop scrollLeft : Z)
| FileSelect (filePath : option string)
| FileSave
| FileReset
(* the parent re-renders the component *)
| PropsChange (p : WorkspaceProps)
(* the store publishes a new value of a subscribed field *)
| PreviewsChange (ps : list PreviewInfo)
| FilesChange (fs : FileMap)
| CurrentViewChange (v : WorkbenchViewType)
| ShowWorkbenchChange (b : bool)
| ShowTerminalChange (b : bool)
(* the [i]-th suspended call's promise settles *)
| Settle (i : nat) (r : Settlement)
(* time passes *)
| Tick (ms : N).

Fixpoint remove_nth {T : Type} (i : nat) (l : list T) : list T :=
  match i, l with
  | _, [] => []
  | O, _ :: l' => l'
  | S i', x :: l' => x :: remove_nth i' l'
  end.

(** The panel is in the tree, so its controls can receive gestures. *)
Definition panel_rendered (w : World) : bool :=
  visible (render (props w) (comp w)).

(** Modelled from the spec: [PanelHeaderButton] is declared outside this
    file; a control rendered with [disabled] delivers no click ("disabling
    the trigger control while [isSyncing] is true"). *)
Definition sync_clickable (w : World) : bool :=
  match render (props w) (comp w) with
  | NodeElement p => negb (sync_disabled p)
  | _ => false
  end.

Definition gesture (p : Prog unit) (w : World) : option World :=
  if panel_rendered w then Some (commit false (spawn p w)) else None.

Definition publish (f : State -> State) (filesChanged : bool) (w : World) : option World :=
  Some (commit filesChanged (with_comp (f (comp w)) w)).

Definition step (w : World) (ev : Event) : option World :=
  match ev with
  | ClickSync e =>
      if sync_clickable w then Some (commit false (spawn (handleSyncFiles (Some e)) w))
      else None
  | SelectView v => gesture (setSelectedView v) w
  | ClickExport => gesture handleExport w
  | ClickToggleTerminal => gesture onToggleTerminal w
  | ClickClose => gesture onClose w
  | EditorChange content => gesture (onEditorChange content) w
  | EditorScroll scrollTop scrollLeft => gesture (onEditorScroll scrollTop scrollLeft) w
  | FileSelect filePath => gesture (onFileSelect filePath) w
  | FileSave => gesture onFileSave w
  | FileReset => gesture onFileReset w
  | PropsChange p =>
      Some (commit false (mkWorld p (comp w) (dep_hasPreview w) (pending w)))
  | PreviewsChange ps => publish (with_previews ps) false w
  | FilesChange fs => publish (with_files fs) true w
  | CurrentViewChange v => publish (with_currentView v) false w
  | ShowWorkbenchChange b => publish (with_showWorkbench b) false w
  | ShowTerminalChange b => publish (with_showTerminal b) false w
  | Settle i r =>
      match nth_error (pending w) i, r with
      | Some (AwaitPicker k), PickerSettled o =>
          Some (commit false
                  (spawn (k o)
                     (mkWorld (props w) (comp w) (dep_hasPreview w)
                              (remove_nth i (pending w)))))
      | Some (AwaitStore _ k), StoreSettled o =>
          Some (commit false
                  (spawn (k o)
                     (mkWorld (props w) (comp w) (dep_hasPreview w)
                              (remove_nth i (pending w)))))
      | _, _ => None
      end
  | Tick ms => Some (with_comp (elapse ms (comp w)) w)
  end.

Fixpoint run (w : World) (evs : list Event) : option World :=
  match evs with
  | [] => Some w
  | ev :: evs' =>
      match step w ev with
      | Some w' => run w' evs'
      | None => None
      end
  end.

(** The states the component can be in. *)
Definition reachable (w : World) : Prop :=
  exists p hasPicker st t0 evs, run (mount p hasPicker st t0) evs = Some w.

(** ** Suspended calls *)

(** [catch (error) { console.error('Error syncing files:', error) }] *)
Definition sync_catch (error : JsError) : Prog unit :=
  effect (ConsoleError "Error syncing files:" error).

(** [handleSyncFiles] from the point where the picker's promise settles. *)
Definition picker_k (o : Outcome FileSystemDirectoryHandle) : Prog unit :=
  try_catch_finally
    (directoryHandle <- settle o ;;
     act (with_directoryRef (Some directoryHandle)) ;;
     store_syncFiles directoryHandle ;;
     now <- getTime ;;
     setLastSync now)
    sync_catch
    (setIsSyncing false).

(** [handleSyncFiles] from the point where the store's promise settles. *)
Definition sync_k (o : Outcome unit) : Prog unit :=
  try_catch_finally
    (settle o ;;
     now <- getTime ;;
     setLastSync now)
    sync_catch
    (setIsSyncing false).

(** The [.catch] callback of [onFileSave]. *)
Definition save_k (o : Outcome unit) : Prog unit :=
  match o with
  | Resolved _ => Ret tt
  | Rejected _ => effect (ToastError "Failed to update file content")
  end.

(** The three kinds of suspended call the component can have. *)
Inductive TaskKind : Type :=
| KPicker                                  (* waiting for the picker *)
| KSync (h : FileSystemDirectoryHandle)    (* waiting for [syncFiles(h)] *)
| KSave.                                   (* waiting for the save *)

Definition task_of (k : TaskKind) : Prog unit :=
  match k with
  | KPicker => AwaitPicker picker_k
  | KSync h => AwaitStore (AwaitSyncFiles h) sync_k
  | KSave => AwaitStore AwaitSaveCurrentDocument save_k
  end.

Definition is_sync_kind (k : TaskKind) : bool :=
  match k with
  | KSave => false
  | _ => true
  end.

Definition awaits_picker (t : Prog unit) : bool :=
  match t with
  | AwaitPicker _ => true
  | _ => false
  end.

Definition awaits_sync (t : Prog unit) : bool :=
  match t with
  | AwaitStore (AwaitSyncFiles _) _ => true
  | _ => false
  end.

Definition in_sync (t : Prog unit) : bool := awaits_picker t || awaits_sync t.

(** Calls of [handleSyncFiles] that have set [isSyncing] and not yet
    reached their [finally]. *)
Definition syncs_in_flight (w : World) : nat :=
  List.length (filter in_sync (pending w)).

(** Invocations of the store's [syncFiles] that have not settled. *)
Definition store_syncs_in_flight (w : World) : nat :=
  List.length (filter awaits_sync (pending w)).

(** The effects added to the trace between two states. *)
Definition new_effects (before after : State) : list Effect :=
  skipn (List.length (trace before)) (trace after).

Definition is_toast (e : Effect) : bool :=
  match e with
  | ToastError _ => true
  | _ => false
  end.

Definition is_save_call (e : Effect) : bool :=
  match e with
  | Store saveCurrentDocument => true
  | _ => false
  end.

(** *** The stages of a call of [handleSyncFiles] *)

Definition started (s : State) : State :=
  emit (SetIsSyncing true) (with_isSyncing true s).

Definition prompted (s : State) : State :=
  emit ShowDirectoryPicker s.

Definition store_called (h : FileSystemDirectoryHandle) (s : State) : State :=
  emit (Store (syncFiles h)) (with_directoryRef (Some h) s).

Definition recorded (s : State) : State :=
  emit (SetLastSync (clock s)) (with_lastSync (Some (clock s)) s).

Definition failed (e : JsError) (s : State) : State :=
  emit (ConsoleError "Error syncing files:" e) s.

Definition finished (s : State) : State :=
  emit (SetIsSyncing false) (with_isSyncing false s).

(** The state after the store's promise has settled. *)
Definition after_store (env : Env) (h : FileSystemDirectoryHandle) (s : State) : State :=
  let s1 := elapse (store_ms env (AwaitSyncFiles h)) s in
  match store_outcome env (AwaitSyncFiles h) with
  | Resolved _ => finished (recorded s1)
  | Rejected e => finished (failed e s1)
  end.

(** *** What the environment decides for one call *)

(** The handle the call works with: the cached one, or the picker's. *)
Definition acquired (env : Env) (s : State) : Outcome FileSystemDirectoryHandle :=
  match directoryRef s with
  | Some h => Resolved h
  | None => picker_outcome env
  end.

(** Whether the sync as a whole succeeds: both the acquisition of the
    handle and the store's [syncFiles]. *)
Definition sync_outcome (env : Env) (s : State) : Outcome unit :=
  match acquired env s with
  | Resolved h => store_outcome env (AwaitSyncFiles h)
  | Rejected e => Rejected e
  end.

(** Milliseconds between the call and its completion. *)
Definition sync_ms (env : Env) (s : State) : N :=
  ((match directoryRef s with Some _ => 0 | None => picker_ms env end) +
   (match acquired env s with
    | Resolved h => store_ms env (AwaitSyncFiles h)
    | Rejected _ => 0
    end))%N.

(** [handleSyncFiles] passes its guard. *)
Definition proceeds (e : option MouseEvent) (s : State) : bool :=
  truthy (directoryRef s) || truthy e.

(** The number of sync calls among suspended calls of kinds [ks]. *)
Definition sync_count (ks : list TaskKind) : nat :=
  List.length (filter is_sync_kind ks).

(** The events by which the event loop plays one sync by hand: the
    click, then for each suspension the time that passes and the
    settlement the environment decides. *)
Definition sync_events (env : Env) (s : State) (e : MouseEvent) : list Event :=
  ClickSync e ::
  match directoryRef s with
  | Some h =>
      [Tick (store_ms env (AwaitSyncFiles h));
       Settle 0 (StoreSettled (store_outcome env (AwaitSyncFiles h)))]
  | None =>
      Tick (picker_ms env) ::
      Settle 0 (PickerSettled (picker_outcome env)) ::
      match picker_outcome env with
      | Resolved h =>
          [Tick (store_ms env (AwaitSyncFiles h));
           Settle 0 (StoreSettled (store_outcome env (AwaitSyncFiles h)))]
      | Rejected _ => []
      end
  end.

(** *** Restricted interleavings *)

(** No file-set change arrives while a sync is in flight and a handle is
    cached. *)
Definition quiet (w : World) (ev : Event) : bool :=
  match ev with
  | FilesChange _ =>
      (syncs_in_flight w =? 0)%nat || negb (truthy (directoryRef (comp w)))
  | _ => true
  end.

Fixpoint run_quiet (w : World) (evs : list Event) : option World :=
  match evs with
  | [] => Some w
  | ev :: evs' =>
      if quiet w ev then
        match step w ev with
        | Some w' => run_quiet w' evs'
        | None => None
        end
      else None
  end.

(** An event that sets the view to [preview] by hand or from elsewhere. *)
Definition selects_preview (ev : Event) : bool :=
  match ev with
  | SelectView preview | CurrentViewChange preview => true
  | _ => false
  end.

Definition nonempty (ps : list PreviewInfo) : bool :=
  match ps with
  | [] => false
  | _ :: _ => true
  end.

(** The previews list never goes from empty to non-empty along [evs],
    starting from a list that is non-empty or not as [ne] says. *)
Fixpoint no_rising_edge (ne : bool) (evs : list Event) : bool :=
  match evs with
  | [] => true
  | PreviewsChange ps :: evs' =>
      (ne || negb (nonempty ps)) && no_rising_edge (nonempty ps) evs'
  | _ :: evs' => no_rising_edge ne evs'
  end.

(** *** What holds in every state of the component *)

(** The suspended calls are of the three kinds; a call waits for the
    picker only while no handle is cached, alone, and with [isSyncing]
    set; once a handle is cached every store sync in flight is on it. *)
Definition pool_ok (s : State) (ks : list TaskKind) : Prop :=
  match directoryRef s with
  | Some h => forall k, In k ks -> k = KSave \/ k = KSync h
  | None =>
      (forall k, In k ks -> k = KSave \/ k = KPicker) /\
      (List.length (filter is_sync_kind ks) <= 1)%nat /\
      (isSyncing s = false -> filter is_sync_kind ks = [])
  end.

Definition Inv (w : World) : Prop :=
  dep_hasPreview w = hasPreview (comp w) /\
  exists ks, pending w = map task_of ks /\ pool_ok (comp w) ks.

(** *** The steps of the event loop, by what they do to the sync state *)

(** Effects that belong to a sync: they occur only inside
    [handleSyncFiles]. *)
Definition sync_effect (e : Effect) : bool :=
  match e with
  | SetIsSyncing _ | SetLastSync _ | ShowDirectoryPicker | Store (syncFiles _) => true
  | _ => false
  end.

(** A change of state that leaves the sync cells and the previews alone
    and adds no effect of a sync to the trace. *)
Definition neutral (s s' : State) : Prop :=
  isSyncing s' = isSyncing s /\
  lastSync s' = lastSync s /\
  directoryRef s' = directoryRef s /\
  previews s' = previews s /\
  exists l, trace s' = trace s ++ l /\ existsb sync_effect l = false.

(** The view an event asks for, if it asks for one. *)
Definition view_after (ev : Event) (v : WorkbenchViewType) : WorkbenchViewType :=
  match ev with
  | SelectView v' | CurrentViewChange v' => v'
  | _ => v
  end.

(** [transition s ks ev s' ks']: from state [s] with suspended calls of
    kinds [ks], the event [ev] leads to [s'] and [ks']. *)
Inductive transition (s : State) (ks : list TaskKind) :
  Event -> State -> list TaskKind -> Prop :=
| T_click_prompt e :
    isSyncing s = false -> directoryRef s = None ->
    transition s ks (ClickSync e) (prompted (started s)) (ks ++ [KPicker])
| T_click_cached e h :
    isSyncing s = false -> directoryRef s = Some h ->
    transition s ks (ClickSync e) (store_called h (started s)) (ks ++ [KSync h])
| T_save :
    transition s ks FileSave (emit (Store saveCurrentDocument) s) (ks ++ [KSave])
| T_other ev s' :
    (forall e, ev <> ClickSync e) -> ev <> FileSave ->
    (forall ps, ev <> PreviewsChange ps) -> (forall fs, ev <> FilesChange fs) ->
    (forall i r, ev <> Settle i r) ->
    neutral s s' -> currentView s' = view_after ev (currentView s) ->
    transition s ks ev s' ks
| T_previews_rise ps :
    hasPreview s = false -> nonempty ps = true ->
    transition s ks (PreviewsChange ps)
      (emit (CurrentViewSet preview) (with_currentView preview (with_previews ps s))) ks
| T_previews_other ps :
    (hasPreview s = true \/ nonempty ps = false) ->
    transition s ks (PreviewsChange ps) (with_previews ps s) ks
| T_files_idle fs :
    directoryRef s = None ->
    transition s ks (FilesChange fs)
      (emit (Store (setDocuments fs)) (with_files fs s)) ks
| T_files_sync fs h :
    directoryRef s = Some h ->
    transition s ks (FilesChange fs)
      (store_called h (started (emit (Store (setDocuments fs)) (with_files fs s))))
      (ks ++ [KSync h])
| T_picked i h :
    nth_error ks i = Some KPicker ->
    transition s ks (Settle i (PickerSettled (Resolved h)))
      (store_called h s) (remove_nth i ks ++ [KSync h])
| T_pick_failed i e :
    nth_error ks i = Some KPicker ->
    transition s ks (Settle i (PickerSettled (Rejected e)))
      (finished (failed e s)) (remove_nth i ks)
| T_synced i h u :
    nth_error ks i = Some (KSync h) ->
    transition s ks (Settle i (StoreSettled (Resolved u)))
      (finished (recorded s)) (remove_nth i ks)
| T_sync_failed i h e :
    nth_error ks i = Some (KSync h) ->
    transition s ks (Settle i (StoreSettled (Rejected e)))
      (finished (failed e s)) (remove_nth i ks)
| T_saved i u :
    nth_error ks i = Some KSave ->
    transition s ks (Settle i (StoreSettled (Resolved u))) s (remove_nth i ks)
| T_save_failed i e :
    nth_error ks i = Some KSave ->
    transition s ks (Settle i (StoreSettled (Rejected e)))
      (emit (ToastError "Failed to update file content") s) (remove_nth i ks).

(** An effect that is compatible with the cached handle [h]: not the
    picker, and no store sync on another handle. *)
Definition reuses (h : FileSystemDirectoryHandle) (e : Effect) : bool :=
  match e with
  | ShowDirectoryPicker => false
  | Store (syncFiles h') => String.eqb h' h
  | _ => true
  end.

(** The view after an event, from the view and the previews before it. *)
Definition next_view (s : State) (ev : Event) : WorkbenchViewType :=
  match ev with
  | PreviewsChange ps =>
      if negb (hasPreview s) && nonempty ps then preview else currentView s
  | _ => view_after ev (currentView s)
  end.

Definition next_previews (s : State) (ev : Event) : list PreviewInfo :=
  match ev with
  | PreviewsChange ps => ps
  | _ => previews s
  end.

(** *** The state after an event, as a table *)

(** What each event of the loop does to the state, when the suspended
    calls are of kinds [ks]. *)
Definition next_state (s : State) (ks : list TaskKind) (ev : Event) : State :=
  match ev with
  | ClickSync _ =>
      match directoryRef s with
      | Some h => store_called h (started s)
      | None => prompted (started s)
      end
  | SelectView v => emit (CurrentViewSet v) (with_currentView v s)
  | ClickExport => emit (Store exportProjectAsZip) (emit (ConsoleLog "handle export") s)
  | ClickToggleTerminal => emit (Store (toggleTerminal (negb (showTerminal s)))) s
  | ClickClose => emit (ShowWorkbenchSet false) (with_showWorkbench false s)
  | EditorChange content => emit (Store (setCurrentDocumentContent content)) s
  | EditorScroll scrollTop scrollLeft =>
      emit (Store (setCurrentDocumentScrollPosition scrollTop scrollLeft)) s
  | FileSelect filePath => emit (Store (setSelectedFile filePath)) s
  | FileSave => emit (Store saveCurrentDocument) s
  | FileReset => emit (Store resetCurrentDocument) s
  | PropsChange _ => s
  | PreviewsChange ps =>
      if negb (hasPreview s) && nonempty ps
      then emit (CurrentViewSet preview) (with_currentView preview (with_previews ps s))
      else with_previews ps s
  | FilesChange fs =>
      let s1 := emit (Store (setDocuments fs)) (with_files fs s) in
      match directoryRef s with
      | Some h => store_called h (started s1)
      | None => s1
      end
  | CurrentViewChange v => with_currentView v s
  | ShowWorkbenchChange b => with_showWorkbench b s
  | ShowTerminalChange b => with_showTerminal b s
  | Settle i r =>
      match nth_error ks i, r with
      | Some KPicker, PickerSettled (Resolved h) => store_called h s
      | Some KPicker, PickerSettled (Rejected e) => finished (failed e s)
      | Some (KSync _), StoreSettled (Resolved _) => finished (recorded s)
      | Some (KSync _), StoreSettled (Rejected e) => finished (failed e s)
      | Some KSave, StoreSettled (Rejected _) =>
          emit (ToastError "Failed to update file content") s
      | _, _ => s
      end
  | Tick ms => elapse ms s
  end.

(** What each event does to the kinds of the suspended calls. *)
Definition next_kinds (s : State) (ks : list TaskKind) (ev : Event) : list TaskKind :=
  match ev with
  | ClickSync _ =>
      ks ++ [match directoryRef s with Some h => KSync h | None => KPicker end]
  | FileSave => ks ++ [KSave]
  | FilesChange _ =>
      match directoryRef s with
      | Some h => ks ++ [KSync h]
      | None => ks
      end
  | Settle i (PickerSettled (Resolved h)) => remove_nth i ks ++ [KSync h]
  | Settle i _ => remove_nth i ks
  | _ => ks
  end.

(** The effects an event adds to the trace. *)
Definition next_effects (s : State) (ks : list TaskKind) (ev : Event) : list Effect :=
  new_effects s (next_state s ks ev).

(** The props after an event. *)
Definition next_props (p : WorkspaceProps) (ev : Event) : WorkspaceProps :=
  match ev with
  | PropsChange p' => p'
  | _ => p
  end.

(** The recorded timestamp is never ahead of the clock. *)
Definition timestamp_ok (s : State) : Prop :=
  forall t, lastSync s = Some t -> t <= clock s.

(** A settlement addresses a suspended call of the matching kind. *)
Definition settles (ks : list TaskKind) (ev : Event) : Prop :=
  match ev with
  | Settle i r =>
      match nth_error ks i, r with
      | Some KPicker, PickerSettled _
      | Some (KSync _), StoreSettled _
      | Some KSave, StoreSettled _ => True
      | _, _ => False
      end
  | _ => True
  end.

(** The store operation a forwarding handler passes its argument to. *)
Definition forwarded_call (s : State) (ev : Event) : option StoreCall :=
  match ev with
  | ClickExport => Some exportProjectAsZip
  | ClickToggleTerminal => Some (toggleTerminal (negb (showTerminal s)))
  | EditorChange content => Some (setCurrentDocumentContent content)
  | EditorScroll scrollTop scrollLeft =>
      Some (setCurrentDocumentScrollPosition scrollTop scrollLeft)
  | FileSelect filePath => Some (setSelectedFile filePath)
  | FileReset => Some resetCurrentDocument
  | _ => None
  end.

(** The cells of the component and the store fields it shows. *)
Definition same_cells (s s' : State) : Prop :=
  isSyncing s' = isSyncing s /\
  lastSync s' = lastSync s /\
  isSyncFeatureAvailable s' = isSyncFeatureAvailable s /\
  directoryRef s' = directoryRef s /\
  previews s' = previews s /\
  files s' = files s /\
  clock s' = clock s.

(** *** Sample data *)

Definition sample_store : StoreInit :=
  {| init_showWorkbench := true;
     init_showTerminal := false;
     init_currentView := code;
     init_previews := [];
     init_files := [("index.ts", "export {}")] |}.

Definition sample_props : WorkspaceProps :=
  {| chatStarted := Some true; isStreaming := Some false |}.

Definition sample_click : MouseEvent := {| clientX := 10; clientY := 20 |}.

Definition sample_world : World := mount sample_props true sample_store 1000.

(** The state after mounting: nothing cached, nothing recorded. *)
Definition sample_state : State := comp sample_world.

(** The picker yields ["project"] after 1500 ms; the store then takes
    [ms] milliseconds and settles as [o]. *)
Definition sample_env (o : Outcome unit) (ms : N) : Env :=
  {| picker_outcome := Resolved "project";
     picker_ms := 1500;
     store_outcome := fun _ => o;
     store_ms := fun _ => ms |}.

(** The user dismisses the picker. *)
Definition cancel_env : Env :=
  {| picker_outcome := Rejected AbortError;
     picker_ms := 1500;
     store_outcome := fun _ => Resolved tt;
     store_ms := fun _ => 0%N |}.

(** The state after a first sync by hand that went well: the handle
    ["project"] is cached and a timestamp is recorded. *)
Definition sample_state_cached : State :=
  snd (exec (sample_env (Resolved tt) 30) (handleSyncFiles (Some sample_click))
         sample_state).

(** The user picks a folder; the store's sync is in flight. *)
Definition sample_world_syncing : option World :=
  run sample_world
    [ClickSync sample_click; Settle 0 (PickerSettled (Resolved "project"))].

(** The component mounted while a preview already exists. *)
Definition sample_world_preview : World :=
  mount sample_props true
    {| init_showWorkbench := true;
       init_showTerminal := false;
       init_currentView := code;
       init_previews := ["http://localhost:5173"];
       init_files := [("index.ts", "export {}")] |}
    1000.

(** The user picks a folder, and the file set changes while the store's
    sync is still in flight. *)
Definition overlapping_events : list Event :=
  [ClickSync sample_click;
   Settle 0 (PickerSettled (Resolved "project"));
   FilesChange [("index.ts", "export {}"); ("main.ts", "")]].

(** * Properties *)

(** ** Sample runs *)

(** After mounting: the probe found the picker, the file map went to the
    store, and nothing was synced. *)
Example mount_trace :
  trace sample_state =
    [SetIsSyncFeatureAvailable true;
     Store (setDocuments [("index.ts", "export {}")])] /\
  pending sample_world = [].
Proof. vm_compute. split; reflexivity. Qed.

(** A first sync by hand, 1500 ms in the picker and 30 ms in the store. *)
Example first_sync_trace :
  new_effects sample_state sample_state_cached =
    [SetIsSyncing true; ShowDirectoryPicker; Store (syncFiles "project");
     SetLastSync 2530; SetIsSyncing false] /\
  directoryRef sample_state_cached = Some "project" /\
  lastSync sample_state_cached = Some 2530.
Proof. vm_compute. repeat split; reflexivity. Qed.

(** The same sync played by the event loop. *)
Example first_sync_by_events :
  option_map comp
    (run sample_world
       (sync_events (sample_env (Resolved tt) 30) sample_state sample_click))
  = Some sample_state_cached.
Proof. vm_compute. reflexivity. Qed.

(** The button's text 125 seconds after that sync. *)
Example label_after_two_minutes :
  syncLabel (elapse 125000 sample_state_cached) = SyncedAgo (Some 2) 5 /\
  syncLabel sample_state = SelectSyncFolder /\
  syncLabel (started sample_state) = SyncingLabel.
Proof. vm_compute. repeat split; reflexivity. Qed.

(** The overlapping run leaves two store syncs in flight. *)
Example overlapping_run :
  option_map (fun w => (isSyncing (comp w), List.length (pending w)))
    (run sample_world overlapping_events) = Some (true, 2%nat).
Proof. vm_compute. reflexivity. Qed.

(** ** How a call of [handleSyncFiles] unfolds *)

Lemma advance_handleSyncFiles (e : option MouseEvent) (s : State) :
  advance (handleSyncFiles e) s =
  if proceeds e s then
    match directoryRef s with
    | Some h => (task_of (KSync h), store_called h (started s))
    | None => (task_of KPicker, prompted (started s))
    end
  else (Ret tt, s).
Proof.
  destruct s as [a b c [h|] d f g i j k l]; destruct e; reflexivity.
Qed.

Lemma resume_picker (o : Outcome FileSystemDirectoryHandle) (s : State) :
  advance (picker_k o) s =
  match o with
  | Resolved h => (task_of (KSync h), store_called h s)
  | Rejected e => (Ret tt, finished (failed e s))
  end.
Proof. destruct o; reflexivity. Qed.

Lemma resume_sync (o : Outcome unit) (s : State) :
  advance (sync_k o) s =
  match o with
  | Resolved _ => (Ret tt, finished (recorded s))
  | Rejected e => (Ret tt, finished (failed e s))
  end.
Proof. destruct o; reflexivity. Qed.

Lemma resume_save (o : Outcome unit) (s : State) :
  advance (save_k o) s =
  match o with
  | Resolved _ => (Ret tt, s)
  | Rejected _ => (Ret tt, emit (ToastError "Failed to update file content") s)
  end.
Proof. destruct o; reflexivity. Qed.

(** The call followed to its end, whatever the environment answers. *)
Lemma exec_handleSyncFiles (e : option MouseEvent) (env : Env) (s : State) :
  exec env (handleSyncFiles e) s =
  (Normal tt,
   if proceeds e s then
     match directoryRef s with
     | Some h => after_store env h (store_called h (started s))
     | None =>
         let s1 := elapse (picker_ms env) (prompted (started s)) in
         match picker_outcome env with
         | Resolved h => after_store env h (store_called h s1)
         | Rejected err => finished (failed err s1)
         end
     end
   else s).
Proof.
  unfold after_store.
  destruct s as [a b c [h|] d f g i j k l]; destruct e; cbn;
    try reflexivity.
  - destruct (store_outcome env (AwaitSyncFiles h)); reflexivity.
  - destruct (store_outcome env (AwaitSyncFiles h)); reflexivity.
  - destruct (picker_outcome env) as [h|err]; cbn; [|reflexivity].
    destruct (store_outcome env (AwaitSyncFiles h)); reflexivity.
Qed.

Lemma new_effects_app (s s' : State) (l : list Effect) :
  trace s' = trace s ++ l -> new_effects s s' = l.
Proof.
  intros H. unfold new_effects. rewrite H.
  rewrite skipn_app, skipn_all, Nat.sub_diag. reflexivity.
Qed.

(** Brings the trace of a state built from the stages above into the form
    [trace s ++ l]. *)
Ltac trace_form :=
  cbn [trace emit started prompted store_called recorded failed finished
       elapse with_clock with_isSyncing with_lastSync with_directoryRef];
  repeat rewrite <- app_assoc; cbn [app].

(** ** One call of [handleSyncFiles] *)

(** The call always completes normally with [isSyncing] cleared. *)
Lemma handleSyncFiles_completes (e : option MouseEvent) (env : Env) (s : State) :
  proceeds e s = true ->
  fst (exec env (handleSyncFiles e) s) = Normal tt /\
  isSyncing (snd (exec env (handleSyncFiles e) s)) = false.
Proof.
  intros Hgo. rewrite exec_handleSyncFiles, Hgo. split; [reflexivity|].
  cbn [snd]. unfold after_store.
  destruct (directoryRef s) as [h|].
  - destruct (store_outcome env (AwaitSyncFiles h)); reflexivity.
  - cbv zeta. destruct (picker_outcome env) as [h|]; [|reflexivity].
    destruct (store_outcome env (AwaitSyncFiles h)); reflexivity.
Qed.

(** C1.  When the acquisition of the handle or the store's sync fails, the
    call still completes normally (nothing escapes to the caller); the
    error is written to the console and nothing else is shown; no
    timestamp is recorded, [lastSync] keeps its value; and [isSyncing] is
    false at the end.  The [finally] block clears the flag for every
    answer of the environment, success included. *)
Theorem syncFiles_failure_is_swallowed
  (e : option MouseEvent) (env : Env) (s : State) (err : JsError) :
  proceeds e s = true ->
  sync_outcome env s = Rejected err ->
  let r := exec env (handleSyncFiles e) s in
  fst r = Normal tt /\
  isSyncing (snd r) = false /\
  lastSync (snd r) = lastSync s /\
  new_effects s (snd r) =
    SetIsSyncing true ::
    (match directoryRef s with Some _ => [] | None => [ShowDirectoryPicker] end) ++
    (match acquired env s with Resolved h => [Store (syncFiles h)] | Rejected _ => [] end) ++
    [ConsoleError "Error syncing files:" err; SetIsSyncing false] /\
  (forall t, ~ In (SetLastSync t) (new_effects s (snd r))) /\
  filter is_toast (new_effects s (snd r)) = [] /\
  (forall env' : Env,
     fst (exec env' (handleSyncFiles e) s) = Normal tt /\
     isSyncing (snd (exec env' (handleSyncFiles e) s)) = false).
Proof.
  intros Hgo Hfail r.
  assert (Hall : forall env' : Env,
             fst (exec env' (handleSyncFiles e) s) = Normal tt /\
             isSyncing (snd (exec env' (handleSyncFiles e) s)) = false).
  { intros env'. apply handleSyncFiles_completes, Hgo. }
  assert (Htrace : lastSync (snd r) = lastSync s /\
            trace (snd r) = trace s ++
              SetIsSyncing true ::
              (match directoryRef s with Some _ => [] | None => [ShowDirectoryPicker] end) ++
              (match acquired env s with Resolved h => [Store (syncFiles h)] | Rejected _ => [] end) ++
              [ConsoleError "Error syncing files:" err; SetIsSyncing false]).
  { subst r. rewrite exec_handleSyncFiles, Hgo. cbn [snd].
    unfold sync_outcome, acquired, after_store in *.
    destruct (directoryRef s) as [h|].
    - rewrite Hfail. split; [reflexivity|]. trace_form. reflexivity.
    - cbv zeta. destruct (picker_outcome env) as [h|err'].
      + rewrite Hfail. split; [reflexivity|]. trace_form. reflexivity.
      + injection Hfail as ->. split; [reflexivity|]. trace_form. reflexivity. }
  destruct Htrace as [Hlast Htrace].
  apply new_effects_app in Htrace.
  split; [apply Hall|]. split; [apply Hall|]. split; [exact Hlast|].
  split; [exact Htrace|]. rewrite Htrace.
  split; [|split; [|exact Hall]].
  - intros t Hin.
    destruct (directoryRef s); destruct (acquired env s); cbn in Hin;
      intuition discriminate.
  - destruct (directoryRef s); destruct (acquired env s); reflexivity.
Qed.

(** The user dismisses the picker: the error is logged, nothing more. *)
Lemma syncFiles_failure_is_swallowed_witness :
  proceeds (Some sample_click) sample_state = true /\
  sync_outcome cancel_env sample_state = Rejected AbortError /\
  isSyncing (snd (exec cancel_env (handleSyncFiles (Some sample_click)) sample_state))
    = false.
Proof.
  split; [reflexivity|]. split; [reflexivity|].
  exact (proj1 (proj2 (syncFiles_failure_is_swallowed (Some sample_click)
                         cancel_env sample_state AbortError eq_refl eq_refl))).
Defined.

(** C2.  Without a cached handle and without a mouse event the call does
    nothing at all: it returns with the state as it was (so [isSyncing]
    keeps its value, the picker is not shown and the store is not
    called), and in the event loop it leaves no suspended call. *)
Theorem syncFiles_noop_without_handle_or_gesture (env : Env) (s : State) :
  directoryRef s = None ->
  exec env (handleSyncFiles None) s = (Normal tt, s) /\
  new_effects s (snd (exec env (handleSyncFiles None) s)) = [] /\
  (forall w : World, comp w = s -> spawn (handleSyncFiles None) w = w).
Proof.
  intros Hnone.
  assert (Hgo : proceeds None s = false) by (unfold proceeds; rewrite Hnone; reflexivity).
  rewrite exec_handleSyncFiles, Hgo. split; [reflexivity|]. split.
  - apply new_effects_app. cbn [snd]. rewrite app_nil_r. reflexivity.
  - intros w <-. unfold spawn. rewrite advance_handleSyncFiles, Hgo.
    destruct w; reflexivity.
Qed.

Lemma syncFiles_noop_without_handle_or_gesture_witness :
  exec cancel_env (handleSyncFiles None) sample_state = (Normal tt, sample_state).
Proof.
  apply (syncFiles_noop_without_handle_or_gesture cancel_env sample_state).
  reflexivity.
Defined.

(** C5 as stated fails: a sync by hand on a cached handle whose store call
    settles within the same millisecond records a timestamp equal to, not
    greater than, the clock reading before the call. *)
Lemma syncFiles_timestamp_not_strictly_later :
  let env := sample_env (Resolved tt) 0 in
  let s := sample_state_cached in
  let s' := snd (exec env (handleSyncFiles (Some sample_click)) s) in
  isSyncing s = false /\
  sync_outcome env s = Resolved tt /\
  lastSync s' = Some (clock s) /\
  ~ (exists t, lastSync s' = Some t /\ clock s < t).
Proof.
  cbv zeta. split; [reflexivity|]. split; [reflexivity|]. split; [reflexivity|].
  intros [t [Ht Hlt]]. vm_compute in Ht. injection Ht as <-.
  vm_compute in Hlt. discriminate.
Qed.

(** C5, amended.  A sync by hand that goes well sets [isSyncing], calls
    the store (after the picker when no handle is cached), records the
    clock reading taken when the store's promise has settled and clears
    [isSyncing].  That reading is the reading before the call plus the
    milliseconds that passed while the call was suspended: never earlier,
    and later exactly when at least one millisecond passed. *)
Theorem syncFiles_success_records_completion_time
  (e : MouseEvent) (env : Env) (s : State) (u : unit) :
  sync_outcome env s = Resolved u ->
  let r := exec env (handleSyncFiles (Some e)) s in
  let t := clock s + Z.of_N (sync_ms env s) in
  fst r = Normal tt /\
  isSyncing (snd r) = false /\
  lastSync (snd r) = Some t /\
  (exists h,
     acquired env s = Resolved h /\
     directoryRef (snd r) = Some h /\
     new_effects s (snd r) =
       SetIsSyncing true ::
       (match directoryRef s with Some _ => [] | None => [ShowDirectoryPicker] end) ++
       [Store (syncFiles h); SetLastSync t; SetIsSyncing false]) /\
  clock s <= t /\
  (clock s < t <-> (0 < sync_ms env s)%N).
Proof.
  intros Hok r t.
  assert (Hmain : lastSync (snd r) = Some t /\
            exists h,
              acquired env s = Resolved h /\
              directoryRef (snd r) = Some h /\
              trace (snd r) = trace s ++
                SetIsSyncing true ::
                (match directoryRef s with Some _ => [] | None => [ShowDirectoryPicker] end) ++
                [Store (syncFiles h); SetLastSync t; SetIsSyncing false]).
  { subst r t. rewrite exec_handleSyncFiles. cbn [snd].
    unfold proceeds, sync_ms, sync_outcome, acquired, after_store in *.
    rewrite orb_true_r.
    destruct (directoryRef s) as [h|].
    - rewrite Hok. trace_form. rewrite N.add_0_l.
      split; [reflexivity|]. exists h. repeat split; reflexivity.
    - cbv zeta. destruct (picker_outcome env) as [h|err]; [|discriminate].
      rewrite Hok. trace_form.
      rewrite N2Z.inj_add, Z.add_assoc.
      split; [reflexivity|]. exists h. repeat split; reflexivity. }
  destruct Hmain as [Hlast [h [Hacq [Hdir Htrace]]]].
  apply new_effects_app in Htrace.
  assert (Hgo : proceeds (Some e) s = true) by (unfold proceeds; apply orb_true_r).
  split; [apply handleSyncFiles_completes, Hgo|].
  split; [apply handleSyncFiles_completes, Hgo|].
  split; [exact Hlast|].
  split; [exists h; auto|].
  subst t. split; lia.
Qed.

(** A first sync by hand: 1500 ms in the picker, 30 ms in the store. *)
Lemma syncFiles_success_records_completion_time_witness :
  sync_outcome (sample_env (Resolved tt) 30) sample_state = Resolved tt /\
  lastSync (snd (exec (sample_env (Resolved tt) 30)
                   (handleSyncFiles (Some sample_click)) sample_state))
    = Some 2530.
Proof.
  split; [reflexivity|].
  exact (proj1 (proj2 (proj2
           (syncFiles_success_records_completion_time sample_click
              (sample_env (Resolved tt) 30) sample_state tt eq_refl)))).
Defined.

(** ** Saving *)

(** C8.  [onFileSave] calls the store's [saveCurrentDocument] once and
    never again.  When that call rejects, one error toast is shown; when
    it resolves, none is. *)
Theorem onFileSave_failure_shows_one_toast (env : Env) (s : State) :
  let r := exec env onFileSave s in
  fst r = Normal tt /\
  new_effects s (snd r) =
    Store saveCurrentDocument ::
    (match store_outcome env AwaitSaveCurrentDocument with
     | Rejected _ => [ToastError "Failed to update file content"]
     | Resolved _ => []
     end) /\
  List.length (filter is_save_call (new_effects s (snd r))) = 1%nat /\
  List.length (filter is_toast (new_effects s (snd r))) =
    (match store_outcome env AwaitSaveCurrentDocument with
     | Rejected _ => 1%nat
     | Resolved _ => 0%nat
     end).
Proof.
  cbv zeta.
  assert (H : fst (exec env onFileSave s) = Normal tt /\
              trace (snd (exec env onFileSave s)) = trace s ++
                Store saveCurrentDocument ::
                (match store_outcome env AwaitSaveCurrentDocument with
                 | Rejected _ => [ToastError "Failed to update file content"]
                 | Resolved _ => []
                 end)).
  { cbn. destruct (store_outcome env AwaitSaveCurrentDocument); cbn;
      rewrite <- ?app_assoc; split; reflexivity. }
  destruct H as [Hc Ht]. apply new_effects_app in Ht. rewrite Ht.
  split; [exact Hc|]. split; [reflexivity|].
  destruct (store_outcome env AwaitSaveCurrentDocument); split; reflexivity.
Qed.

(** ** Rendering *)

(** C7.  With [chatStarted] false the component returns [false], for
    which React puts nothing in the tree, whatever the state and the other
    prop are; no control of the panel can then receive a gesture. *)
Theorem nothing_rendered_before_chat
  (isStreaming' : option bool) (s : State) (dep : bool) (calls : list (Prog unit)) :
  let p := {| chatStarted := Some false; isStreaming := isStreaming' |} in
  let w := mkWorld p s dep calls in
  render p s = NodeBool false /\
  visible (render p s) = false /\
  panel_rendered w = false /\
  sync_clickable w = false /\
  step w (SelectView code) = None.
Proof.
  cbv zeta. repeat split; reflexivity.
Qed.

(** ** The event loop *)

Lemma remove_nth_map {A B : Type} (f : A -> B) (i : nat) (l : list A) :
  remove_nth i (map f l) = map f (remove_nth i l).
Proof.
  revert i; induction l as [|x l IH]; intros [|i]; cbn; try reflexivity.
  rewrite IH. reflexivity.
Qed.

Lemma commit_false_settled (w : World) :
  dep_hasPreview w = hasPreview (comp w) -> commit false w = w.
Proof.
  unfold commit. intros ->. rewrite eqb_reflx. reflexivity.
Qed.

(** A program that ends without suspending, started after a settled
    render, leaves only its change of state. *)
Lemma spawn_ends (w : World) (p : Prog unit) (s' : State) :
  advance p (comp w) = (Ret tt, s') ->
  previews s' = previews (comp w) ->
  dep_hasPreview w = hasPreview (comp w) ->
  commit false (spawn p w) = with_comp s' w.
Proof.
  intros Ha Hp Hd. unfold spawn. rewrite Ha.
  apply commit_false_settled. cbn. rewrite Hd. unfold hasPreview.
  rewrite Hp. reflexivity.
Qed.

(** A program that suspends adds one suspended call. *)
Lemma spawn_suspends (w : World) (p : Prog unit) (k : TaskKind) (s' : State) :
  advance p (comp w) = (task_of k, s') ->
  previews s' = previews (comp w) ->
  dep_hasPreview w = hasPreview (comp w) ->
  commit false (spawn p w) =
  mkWorld (props w) s' (dep_hasPreview w) (pending w ++ [task_of k]).
Proof.
  intros Ha Hp Hd. unfold spawn. rewrite Ha.
  replace (match task_of k with
           | Ret _ => with_comp s' w
           | Throw e => with_comp (emit (Uncaught e) s') w
           | _ => mkWorld (props w) s' (dep_hasPreview w) (pending w ++ [task_of k])
           end)
    with (mkWorld (props w) s' (dep_hasPreview w) (pending w ++ [task_of k]))
    by (destruct k; reflexivity).
  apply commit_false_settled. cbn. rewrite Hd. unfold hasPreview.
  rewrite Hp. reflexivity.
Qed.

Lemma hasPreview_nonempty (s : State) : hasPreview s = nonempty (previews s).
Proof. unfold hasPreview. destruct (previews s); reflexivity. Qed.

Ltac neutral_tac :=
  repeat split; cbn; try reflexivity;
  first [ exists []; split; [symmetry; apply app_nil_r | reflexivity]
        | eexists; split; [rewrite <- ?app_assoc; reflexivity | reflexivity] ].

Ltac other_tac :=
  apply T_other; [ intros; discriminate .. | neutral_tac | reflexivity ].

Lemma advance_filesEffect (fs : FileMap) (s : State) :
  advance (filesEffect fs) s =
  advance (handleSyncFiles None) (emit (Store (setDocuments fs)) s).
Proof. reflexivity. Qed.

Lemma sync_clickable_idle (w : World) :
  sync_clickable w = true -> isSyncing (comp w) = false.
Proof.
  unfold sync_clickable, render.
  destruct (chatStarted (props w)) as [[|]|]; try discriminate.
  cbn. destruct (isSyncing (comp w)); [|reflexivity].
  rewrite orb_true_r. discriminate.
Qed.

(** Every step of the event loop is one of the transitions, and leaves the
    render settled and the suspended calls of the three kinds. *)
Lemma step_transition (w w' : World) (ev : Event) (ks : list TaskKind) :
  dep_hasPreview w = hasPreview (comp w) ->
  pending w = map task_of ks ->
  step w ev = Some w' ->
  exists ks',
    transition (comp w) ks ev (comp w') ks' /\
    pending w' = map task_of ks' /\
    dep_hasPreview w' = hasPreview (comp w').
Proof.
  intros Hd Hp Hstep.
  destruct ev; unfold step, gesture, publish in Hstep.
  all: try (destruct (panel_rendered w); [|discriminate]).
  all: try (erewrite spawn_ends in Hstep; [ | reflexivity | reflexivity | exact Hd];
            injection Hstep as <-; exists ks; cbn;
            split; [other_tac | split; [exact Hp | rewrite Hd; reflexivity]]).
  - (* ClickSync *)
    destruct (sync_clickable w) eqn:Hc; [|discriminate].
    apply sync_clickable_idle in Hc.
    destruct (directoryRef (comp w)) as [h|] eqn:Hdir.
    + erewrite (spawn_suspends w _ (KSync h)) in Hstep;
        [ | rewrite advance_handleSyncFiles; unfold proceeds; rewrite Hdir; reflexivity
          | reflexivity | exact Hd ].
      injection Hstep as <-.
      exists (ks ++ [KSync h]). cbn. split; [apply T_click_cached; assumption|].
      split; [rewrite Hp, map_app; reflexivity | rewrite Hd; reflexivity].
    + erewrite (spawn_suspends w _ KPicker) in Hstep;
        [ | rewrite advance_handleSyncFiles; unfold proceeds; rewrite Hdir; reflexivity
          | reflexivity | exact Hd ].
      injection Hstep as <-.
      exists (ks ++ [KPicker]). cbn. split; [apply T_click_prompt; assumption|].
      split; [rewrite Hp, map_app; reflexivity | rewrite Hd; reflexivity].
  - (* FileSave *)
    erewrite (spawn_suspends w _ KSave) in Hstep;
      [ | reflexivity | reflexivity | exact Hd ].
    injection Hstep as <-. exists (ks ++ [KSave]). cbn.
    split; [apply T_save|].
    split; [rewrite Hp, map_app; reflexivity | rewrite Hd; reflexivity].
  - (* PropsChange *)
    rewrite commit_false_settled in Hstep by exact Hd.
    injection Hstep as <-. exists ks. cbn.
    split; [other_tac | split; assumption].
  - (* PreviewsChange *)
    unfold commit in Hstep. cbn [comp with_comp dep_hasPreview] in Hstep.
    rewrite Hd, (hasPreview_nonempty (with_previews ps (comp w))) in Hstep.
    cbn [previews with_previews] in Hstep.
    exists ks.
    destruct (nonempty ps) eqn:Hne, (hasPreview (comp w)) eqn:Hhp;
      cbn in Hstep; injection Hstep as <-; cbn.
    + split; [apply T_previews_other; left; assumption|].
      split; [exact Hp | rewrite hasPreview_nonempty; cbn; congruence].
    + split; [apply T_previews_rise; assumption|].
      split; [exact Hp | rewrite hasPreview_nonempty; cbn; congruence].
    + split; [apply T_previews_other; left; assumption|].
      split; [exact Hp | rewrite hasPreview_nonempty; cbn; congruence].
    + split; [apply T_previews_other; right; assumption|].
      split; [exact Hp | rewrite hasPreview_nonempty; cbn; congruence].
  - (* FilesChange *)
    unfold commit in Hstep. cbn [comp with_comp dep_hasPreview] in Hstep.
    replace (hasPreview (with_files fs (comp w))) with (hasPreview (comp w))
      in Hstep by reflexivity.
    rewrite Hd, eqb_reflx in Hstep. cbn [files with_files] in Hstep.
    unfold spawn in Hstep.
    rewrite advance_filesEffect, advance_handleSyncFiles in Hstep.
    unfold proceeds in Hstep.
    cbn [directoryRef emit with_comp comp with_files] in Hstep.
    destruct (directoryRef (comp w)) as [h|] eqn:Hdir; cbn in Hstep;
      injection Hstep as <-; cbn.
    + exists (ks ++ [KSync h]). split; [apply T_files_sync; assumption|].
      split; [rewrite Hp, map_app; reflexivity | rewrite Hd; reflexivity].
    + exists ks. split; [apply T_files_idle; assumption|].
      split; [exact Hp | rewrite Hd; reflexivity].
  - (* CurrentViewChange *)
    rewrite commit_false_settled in Hstep by (cbn; rewrite Hd; reflexivity).
    injection Hstep as <-. exists ks. cbn.
    split; [other_tac | split; [exact Hp | rewrite Hd; reflexivity]].
  - (* ShowWorkbenchChange *)
    rewrite commit_false_settled in Hstep by (cbn; rewrite Hd; reflexivity).
    injection Hstep as <-. exists ks. cbn.
    split; [other_tac | split; [exact Hp | rewrite Hd; reflexivity]].
  - (* ShowTerminalChange *)
    rewrite commit_false_settled in Hstep by (cbn; rewrite Hd; reflexivity).
    injection Hstep as <-. exists ks. cbn.
    split; [other_tac | split; [exact Hp | rewrite Hd; reflexivity]].
  - (* Settle *)
    rewrite Hp, nth_error_map in Hstep.
    destruct (nth_error ks i) as [k|] eqn:Hk; [|discriminate].
    destruct k as [|h|]; cbn [option_map task_of] in Hstep;
      destruct r as [o|o]; try discriminate.
    + destruct o as [h|e].
      * erewrite (spawn_suspends _ _ (KSync h)) in Hstep;
          [ | cbn [comp]; rewrite resume_picker; reflexivity | reflexivity
            | exact Hd ].
        injection Hstep as <-.
        exists (remove_nth i ks ++ [KSync h]). cbn.
        split; [apply T_picked; assumption|].
        split; [rewrite remove_nth_map, map_app; reflexivity
               | rewrite Hd; reflexivity].
      * erewrite spawn_ends in Hstep;
          [ | cbn [comp]; rewrite resume_picker; reflexivity | reflexivity
            | exact Hd ].
        injection Hstep as <-.
        exists (remove_nth i ks). cbn.
        split; [apply T_pick_failed; assumption|].
        split; [apply remove_nth_map | rewrite Hd; reflexivity].
    + destruct o as [u|e].
      * erewrite spawn_ends in Hstep;
          [ | cbn [comp]; rewrite resume_sync; reflexivity | reflexivity
            | exact Hd ].
        injection Hstep as <-.
        exists (remove_nth i ks). cbn.
        split; [apply (T_synced _ _ i h); assumption|].
        split; [apply remove_nth_map | rewrite Hd; reflexivity].
      * erewrite spawn_ends in Hstep;
          [ | cbn [comp]; rewrite resume_sync; reflexivity | reflexivity
            | exact Hd ].
        injection Hstep as <-.
        exists (remove_nth i ks). cbn.
        split; [apply (T_sync_failed _ _ i h); assumption|].
        split; [apply remove_nth_map | rewrite Hd; reflexivity].
    + destruct o as [u|e].
      * erewrite spawn_ends in Hstep;
          [ | cbn [comp]; rewrite resume_save; reflexivity | reflexivity
            | exact Hd ].
        injection Hstep as <-.
        exists (remove_nth i ks). cbn.
        split; [apply T_saved; assumption|].
        split; [apply remove_nth_map | rewrite Hd; reflexivity].
      * erewrite spawn_ends in Hstep;
          [ | cbn [comp]; rewrite resume_save; reflexivity | reflexivity
            | exact Hd ].
        injection Hstep as <-.
        exists (remove_nth i ks). cbn.
        split; [apply T_save_failed; assumption|].
        split; [apply remove_nth_map | rewrite Hd; reflexivity].
  - (* Tick *)
    injection Hstep as <-. exists ks. cbn.
    split; [other_tac | split; [exact Hp | rewrite Hd; reflexivity]].
Qed.

(** ** What holds in every state *)

Lemma In_remove_nth {T : Type} (i : nat) (l : list T) (x : T) :
  In x (remove_nth i l) -> In x l.
Proof.
  revert i; induction l as [|y l IH]; intros [|i]; cbn; auto.
  intros [->|H]; eauto.
Qed.

Lemma filter_remove_nth {T : Type} (f : T -> bool) (i : nat) (l : list T) (x : T) :
  nth_error l i = Some x ->
  List.length (filter f l) =
  ((if f x then 1 else 0) + List.length (filter f (remove_nth i l)))%nat.
Proof.
  revert i; induction l as [|y l IH]; intros [|i]; cbn; try discriminate.
  - intros [= ->]. destruct (f x); reflexivity.
  - intros H. pose proof (IH i H) as IHi.
    destruct (f y), (f x); cbn in *; lia.
Qed.

Lemma filter_remove_nth_neg {T : Type} (f : T -> bool) (i : nat) (l : list T) (x : T) :
  nth_error l i = Some x -> f x = false ->
  filter f (remove_nth i l) = filter f l.
Proof.
  revert i; induction l as [|y l IH]; intros [|i]; cbn; try discriminate.
  - intros [= ->] ->. reflexivity.
  - intros H Hx. rewrite (IH i H Hx). reflexivity.
Qed.

Lemma filter_app_l1 {T : Type} (f : T -> bool) (l : list T) (x : T) :
  filter f (l ++ [x]) = filter f l ++ (if f x then [x] else []).
Proof. rewrite filter_app. cbn. destruct (f x); reflexivity. Qed.

(** The sync calls in flight, counted on the kinds. *)
Lemma syncs_in_flight_kinds (w : World) (ks : list TaskKind) :
  pending w = map task_of ks ->
  syncs_in_flight w = List.length (filter is_sync_kind ks).
Proof.
  unfold syncs_in_flight. intros ->.
  induction ks as [|k ks IH]; [reflexivity|].
  cbn [map filter]. destruct k; cbn; rewrite ?IH; reflexivity.
Qed.

Lemma pool_ok_same (s s' : State) (ks : list TaskKind) :
  isSyncing s' = isSyncing s -> directoryRef s' = directoryRef s ->
  pool_ok s ks -> pool_ok s' ks.
Proof. unfold pool_ok. intros -> ->. auto. Qed.

(** A call waits for the picker only while nothing is cached. *)
Lemma pool_ok_picker (s : State) (ks : list TaskKind) (i : nat) :
  pool_ok s ks -> nth_error ks i = Some KPicker ->
  directoryRef s = None /\
  (forall k, In k (remove_nth i ks) -> k = KSave).
Proof.
  unfold pool_ok. intros Hok Hi.
  destruct (directoryRef s) as [h|].
  - destruct (Hok _ (nth_error_In _ _ Hi)); discriminate.
  - split; [reflexivity|]. destruct Hok as [Hall [Hlen _]].
    pose proof (filter_remove_nth is_sync_kind i ks KPicker Hi) as Hc.
    cbn in Hc. intros k Hk.
    destruct (Hall k (In_remove_nth _ _ _ Hk)) as [->| ->]; [reflexivity|].
    assert (Hin : In KPicker (filter is_sync_kind (remove_nth i ks)))
      by (apply filter_In; split; [exact Hk | reflexivity]).
    destruct (filter is_sync_kind (remove_nth i ks)); [destruct Hin|].
    cbn in Hc. lia.
Qed.

(** A store sync in flight is on the cached handle. *)
Lemma pool_ok_sync (s : State) (ks : list TaskKind) (i : nat)
  (h : FileSystemDirectoryHandle) :
  pool_ok s ks -> nth_error ks i = Some (KSync h) ->
  directoryRef s = Some h.
Proof.
  unfold pool_ok. intros Hok Hi.
  destruct (directoryRef s) as [h'|].
  - destruct (Hok _ (nth_error_In _ _ Hi)) as [|[= ->]]; [discriminate|reflexivity].
  - destruct Hok as [Hall _].
    destruct (Hall _ (nth_error_In _ _ Hi)); discriminate.
Qed.

Lemma pool_ok_remove (s s' : State) (ks : list TaskKind) (i : nat) (k : TaskKind) :
  nth_error ks i = Some k ->
  directoryRef s' = directoryRef s ->
  (isSyncing s' = isSyncing s \/ is_sync_kind k = true) ->
  (directoryRef s = None -> is_sync_kind k = true -> isSyncing s' = false) ->
  pool_ok s ks -> pool_ok s' (remove_nth i ks).
Proof.
  unfold pool_ok. intros Hi -> Hs Hcl Hok.
  destruct (directoryRef s) as [h|].
  - intros k' Hk'. apply Hok, (In_remove_nth _ _ _ Hk').
  - destruct Hok as [Hall [Hlen Hidle]].
    pose proof (filter_remove_nth is_sync_kind i ks k Hi) as Hc.
    split; [intros k' Hk'; apply Hall, (In_remove_nth _ _ _ Hk')|].
    split; [lia|].
    intros Hfalse. destruct (is_sync_kind k) eqn:Hk.
    + destruct (filter is_sync_kind (remove_nth i ks)); [reflexivity|].
      cbn in Hc. lia.
    + rewrite (filter_remove_nth_neg _ _ _ _ Hi Hk).
      destruct Hs as [Hs|]; [|discriminate]. apply Hidle. congruence.
Qed.

Lemma pool_ok_add_save (s s' : State) (ks : list TaskKind) :
  isSyncing s' = isSyncing s -> directoryRef s' = directoryRef s ->
  pool_ok s ks -> pool_ok s' (ks ++ [KSave]).
Proof.
  unfold pool_ok. intros -> -> Hok.
  destruct (directoryRef s) as [h|].
  - intros k Hk. apply in_app_or in Hk as [Hk|[<-|[]]]; auto.
  - destruct Hok as [Hall [Hlen Hidle]].
    rewrite filter_app_l1. cbn. rewrite app_nil_r.
    split; [|split; assumption].
    intros k Hk. apply in_app_or in Hk as [Hk|[<-|[]]]; auto.
Qed.

Lemma pool_ok_add_sync (s s' : State) (ks : list TaskKind)
  (h : FileSystemDirectoryHandle) :
  directoryRef s = Some h -> directoryRef s' = Some h ->
  pool_ok s ks -> pool_ok s' (ks ++ [KSync h]).
Proof.
  unfold pool_ok. intros -> -> Hok k Hk.
  apply in_app_or in Hk as [Hk|[<-|[]]]; auto.
Qed.

Lemma transition_pool_ok (s s' : State) (ks ks' : list TaskKind) (ev : Event) :
  pool_ok s ks -> transition s ks ev s' ks' -> pool_ok s' ks'.
Proof.
  intros Hok Ht. destruct Ht.
  - (* click, prompt *)
    unfold pool_ok in *. cbn. rewrite H0 in *.
    destruct Hok as [Hall [Hlen Hidle]].
    rewrite filter_app_l1, (Hidle H). cbn.
    split; [|split; [lia|discriminate]].
    intros k Hk. apply in_app_or in Hk as [Hk|[<-|[]]]; auto.
  - eapply pool_ok_add_sync; eauto.
  - eapply pool_ok_add_save; eauto; reflexivity.
  - destruct H4 as [Hs [_ [Hdir _]]]. eapply pool_ok_same; eauto.
  - eapply pool_ok_same; eauto; reflexivity.
  - eapply pool_ok_same; eauto; reflexivity.
  - eapply pool_ok_same; eauto; reflexivity.
  - eapply pool_ok_add_sync; eauto.
  - (* picked *)
    destruct (pool_ok_picker _ _ _ Hok H) as [_ Hrest].
    unfold pool_ok. cbn. intros k Hk.
    apply in_app_or in Hk as [Hk|[<-|[]]]; auto.
  - apply (pool_ok_remove s _ ks i _ H); cbn; auto.
  - apply (pool_ok_remove s _ ks i _ H); cbn; auto.
  - apply (pool_ok_remove s _ ks i _ H); cbn; auto.
  - apply (pool_ok_remove s _ ks i _ H); cbn; auto; discriminate.
  - apply (pool_ok_remove s _ ks i _ H); cbn; auto; discriminate.
Qed.

Lemma Inv_mount (p : WorkspaceProps) (hasPicker : bool) (st : StoreInit) (t0 : Z) :
  Inv (mount p hasPicker st t0).
Proof.
  unfold mount, Inv.
  destruct hasPicker, (init_previews st) as [|x l] eqn:Hp; cbn; rewrite ?Hp;
    (split; [reflexivity|]); exists []; (split; [reflexivity|]);
    unfold pool_ok; cbn; (split; [intros k []|split; [lia|reflexivity]]).
Qed.

Lemma Inv_step (w w' : World) (ev : Event) :
  Inv w -> step w ev = Some w' -> Inv w'.
Proof.
  intros [Hd [ks [Hp Hok]]] Hstep.
  destruct (step_transition _ _ _ _ Hd Hp Hstep) as [ks' [Ht [Hp' Hd']]].
  split; [exact Hd'|]. exists ks'. split; [exact Hp'|].
  eapply transition_pool_ok; eauto.
Qed.

Lemma Inv_run (evs : list Event) (w w' : World) :
  Inv w -> run w evs = Some w' -> Inv w'.
Proof.
  revert w; induction evs as [|ev evs IH]; intros w Hi; cbn.
  - intros [= <-]. exact Hi.
  - destruct (step w ev) as [w1|] eqn:Hs; [|discriminate].
    apply IH. eapply Inv_step; eauto.
Qed.

Lemma reachable_Inv (w : World) : reachable w -> Inv w.
Proof.
  intros [p [hp [st [t0 [evs Hrun]]]]].
  eapply Inv_run; [apply Inv_mount | exact Hrun].
Qed.

Lemma reachable_run (w w' : World) (evs : list Event) :
  reachable w -> run w evs = Some w' -> reachable w'.
Proof.
  intros [p [hp [st [t0 [evs0 Hrun]]]]] Hrun'.
  exists p, hp, st, t0, (evs0 ++ evs).
  revert Hrun. generalize (mount p hp st t0).
  induction evs0 as [|ev evs0 IH]; intros w0; cbn.
  - intros [= ->]. exact Hrun'.
  - destruct (step w0 ev); [apply IH | discriminate].
Qed.

(** ** The view mode *)

(** The view changes by a selection or on the empty-to-non-empty edge of
    the previews list, and in no other way. *)
Lemma transition_view (s s' : State) (ks ks' : list TaskKind) (ev : Event) :
  transition s ks ev s' ks' ->
  currentView s' = next_view s ev /\ previews s' = next_previews s ev.
Proof.
  intros Ht. destruct Ht; try (split; reflexivity).
  - (* other *)
    destruct H4 as [_ [_ [_ [Hp _]]]].
    destruct ev; try (split; [exact H5 | exact Hp]).
    exfalso. eapply H1. reflexivity.
  - unfold next_view. rewrite H, H0. split; reflexivity.
  - unfold next_view. split; [|reflexivity].
    destruct H as [-> | ->]; [reflexivity|].
    rewrite andb_false_r. reflexivity.
Qed.

Lemma step_view (w w' : World) (ev : Event) :
  Inv w -> step w ev = Some w' ->
  currentView (comp w') = next_view (comp w) ev /\
  previews (comp w') = next_previews (comp w) ev.
Proof.
  intros [Hd [ks [Hp _]]] Hstep.
  destruct (step_transition _ _ _ _ Hd Hp Hstep) as [ks' [Ht _]].
  eapply transition_view; eauto.
Qed.

(** C3.  In every state of the component, when the store publishes a
    non-empty previews list while the list was empty, the view becomes
    [preview] whatever it was; when it publishes the empty list, the view
    stays as it is and the component does nothing. *)
Theorem preview_arrival_forces_preview (w : World) (ps : list PreviewInfo) :
  reachable w ->
  (previews (comp w) = [] -> ps <> [] ->
   exists w', step w (PreviewsChange ps) = Some w' /\
              previews (comp w') = ps /\
              currentView (comp w') = preview) /\
  (exists w', step w (PreviewsChange []) = Some w' /\
              previews (comp w') = [] /\
              currentView (comp w') = currentView (comp w) /\
              trace (comp w') = trace (comp w)).
Proof.
  intros Hr. apply reachable_Inv in Hr. split.
  - intros Hempty Hne.
    destruct (step w (PreviewsChange ps)) as [w'|] eqn:Hstep; [|discriminate].
    exists w'. split; [reflexivity|].
    destruct (step_view _ _ _ Hr Hstep) as [Hv Hp].
    split; [exact Hp|]. rewrite Hv. unfold next_view.
    rewrite hasPreview_nonempty, Hempty. destruct ps; [contradiction|reflexivity].
  - destruct (step w (PreviewsChange [])) as [w'|] eqn:Hstep; [|discriminate].
    exists w'. split; [reflexivity|].
    destruct (step_view _ _ _ Hr Hstep) as [Hv Hp].
    split; [exact Hp|]. split.
    + rewrite Hv. unfold next_view. cbn. rewrite andb_false_r. reflexivity.
    + destruct Hr as [Hd [ks [Hpend _]]].
      destruct (step_transition _ _ _ _ Hd Hpend Hstep) as [ks' [Ht _]].
      inversion Ht; subst; try reflexivity.
      * exfalso. eapply H1. reflexivity.
      * discriminate.
Qed.

Lemma reachable_mount (p : WorkspaceProps) (hasPicker : bool) (st : StoreInit) (t0 : Z) :
  reachable (mount p hasPicker st t0).
Proof. exists p, hasPicker, st, t0, []. reflexivity. Qed.

Lemma reachable_sample : reachable sample_world.
Proof. apply reachable_mount. Qed.

(** A first preview arrives while the editor is shown. *)
Lemma preview_arrival_forces_preview_witness :
  exists w', step sample_world (PreviewsChange ["http://localhost:5173"]) = Some w' /\
             previews (comp w') = ["http://localhost:5173"] /\
             currentView (comp w') = preview.
Proof.
  apply (proj1 (preview_arrival_forces_preview sample_world
                  ["http://localhost:5173"] reachable_sample)).
  - reflexivity.
  - discriminate.
Defined.

(** While no rising edge of the previews list and no selection of
    [preview] occurs, the [code] view stays. *)
Lemma code_view_stays (evs : list Event) (w w' : World) :
  Inv w ->
  currentView (comp w) = code ->
  no_rising_edge (hasPreview (comp w)) evs = true ->
  existsb selects_preview evs = false ->
  run w evs = Some w' ->
  currentView (comp w') = code.
Proof.
  revert w; induction evs as [|ev evs IH]; intros w Hi Hv Hedge Hsel; cbn.
  - intros [= <-]. exact Hv.
  - destruct (step w ev) as [w1|] eqn:Hstep; [|discriminate].
    cbn in Hsel. apply orb_false_elim in Hsel as [Hsel1 Hsel].
    destruct (step_view _ _ _ Hi Hstep) as [Hv1 Hp1].
    apply IH; [eapply Inv_step; eauto | | | exact Hsel].
    + rewrite Hv1.
      destruct ev; cbn in *; try exact Hv.
      * destruct v; [reflexivity|discriminate].
      * apply andb_prop in Hedge as [Hedge _].
        destruct (hasPreview (comp w)), (nonempty ps); cbn in *;
          try exact Hv; discriminate.
      * destruct v; [reflexivity|discriminate].
    + rewrite hasPreview_nonempty, Hp1.
      destruct ev; cbn in *; rewrite <- ?hasPreview_nonempty; try exact Hedge.
      apply andb_prop in Hedge as [_ Hedge]. exact Hedge.
Qed.

(** C4.  In every state of the component with a non-empty previews list,
    once the user has selected [code] the view stays [code] through any
    further events, as long as nobody selects [preview] and the previews
    list does not go from empty to non-empty: changes of the list that
    keep it non-empty, syncs, saves and renders do not bring [preview]
    back. *)
Theorem manual_code_view_is_sticky (w w' : World) (evs : list Event) :
  reachable w ->
  previews (comp w) <> [] ->
  no_rising_edge true evs = true ->
  existsb selects_preview evs = false ->
  run w (SelectView code :: evs) = Some w' ->
  currentView (comp w') = code.
Proof.
  intros Hr Hne Hedge Hsel Hrun. apply reachable_Inv in Hr.
  cbn [run] in Hrun.
  destruct (step w (SelectView code)) as [w1|] eqn:Hstep; [|discriminate].
  destruct (step_view _ _ _ Hr Hstep) as [Hv1 Hp1].
  apply (code_view_stays evs w1 w'); [eapply Inv_step; eauto | exact Hv1 | | exact Hsel | exact Hrun].
  rewrite hasPreview_nonempty, Hp1. cbn.
  destruct (previews (comp w)); [contradiction|exact Hedge].
Qed.

(** [code] is selected while a preview exists; a second preview arrives,
    the file set changes, the user exports and saves. *)
Lemma manual_code_view_is_sticky_witness :
  match run sample_world_preview
          (SelectView code ::
           [PreviewsChange ["http://localhost:5173"; "http://localhost:5174"];
            FilesChange []; ClickExport; FileSave]) with
  | Some w' => currentView (comp w') = code
  | None => False
  end.
Proof.
  destruct (run sample_world_preview
              (SelectView code ::
               [PreviewsChange ["http://localhost:5173"; "http://localhost:5174"];
                FilesChange []; ClickExport; FileSave])) as [w'|] eqn:E.
  - apply (manual_code_view_is_sticky sample_world_preview w'
             [PreviewsChange ["http://localhost:5173"; "http://localhost:5174"];
              FilesChange []; ClickExport; FileSave]).
    + apply reachable_mount.
    + vm_compute. discriminate.
    + reflexivity.
    + reflexivity.
    + exact E.
  - vm_compute in E. discriminate.
Defined.

(** ** Changes of the file set *)

(** C9.  In every state of the component, when the store publishes a new
    file map the component first passes it to the store's [setDocuments]
    and then calls [handleSyncFiles] without an event: with a cached
    handle that sets [isSyncing] and invokes the store's [syncFiles] on
    it, leaving that call in flight; without one nothing more happens.
    The directory picker is not shown on this path, however the call
    ends. *)
Theorem file_change_propagates_then_syncs (w : World) (fs : FileMap) :
  reachable w ->
  (exists w',
     step w (FilesChange fs) = Some w' /\
     files (comp w') = fs /\
     new_effects (comp w) (comp w') =
       Store (setDocuments fs) ::
       (match directoryRef (comp w) with
        | Some h => [SetIsSyncing true; Store (syncFiles h)]
        | None => []
        end) /\
     pending w' =
       pending w ++
       (match directoryRef (comp w) with
        | Some h => [task_of (KSync h)]
        | None => []
        end)) /\
  (forall env : Env,
     fst (exec env (filesEffect fs) (with_files fs (comp w))) = Normal tt /\
     ~ In ShowDirectoryPicker
         (new_effects (comp w) (snd (exec env (filesEffect fs) (with_files fs (comp w)))))).
Proof.
  intros Hr. apply reachable_Inv in Hr. destruct Hr as [Hd [ks [Hp Hok]]].
  split.
  - destruct (step w (FilesChange fs)) as [w'|] eqn:Hstep; [|discriminate].
    exists w'. split; [reflexivity|].
    destruct (step_transition _ _ _ _ Hd Hp Hstep) as [ks' [Ht [Hp' _]]].
    inversion Ht; subst.
    + exfalso. eapply H2. reflexivity.
    + rewrite H1. split; [reflexivity|]. split.
      * apply new_effects_app. reflexivity.
      * rewrite Hp', Hp, app_nil_r. reflexivity.
    + rewrite H1. split; [reflexivity|]. split.
      * apply new_effects_app. trace_form. reflexivity.
      * rewrite Hp', Hp, map_app. reflexivity.
  - intros env.
    change (exec env (filesEffect fs) (with_files fs (comp w)))
      with (exec env (handleSyncFiles None)
              (emit (Store (setDocuments fs)) (with_files fs (comp w)))).
    rewrite exec_handleSyncFiles. split; [reflexivity|]. cbn [snd].
    unfold proceeds. cbn [directoryRef emit with_files].
    destruct (directoryRef (comp w)) as [h|] eqn:Hdir; cbn [truthy orb].
    + unfold after_store.
      destruct (store_outcome env (AwaitSyncFiles h));
        erewrite new_effects_app by (trace_form; cbn; rewrite <- ?app_assoc; reflexivity);
        cbn; intuition discriminate.
    + erewrite new_effects_app by reflexivity. cbn. intuition discriminate.
Qed.

(** The file set changes while the handle ["project"] is cached. *)
Lemma file_change_propagates_then_syncs_witness :
  match sample_world_syncing with
  | Some w =>
      exists w',
        step w (FilesChange []) = Some w' /\
        new_effects (comp w) (comp w') =
          Store (setDocuments []) ::
          (match directoryRef (comp w) with
           | Some h => [SetIsSyncing true; Store (syncFiles h)]
           | None => []
           end)
  | None => False
  end.
Proof.
  unfold sample_world_syncing.
  destruct (run sample_world
              [ClickSync sample_click;
               Settle 0 (PickerSettled (Resolved "project"))]) as [w|] eqn:E.
  - destruct (proj1 (file_change_propagates_then_syncs w []
                       (reachable_run sample_world w _ reachable_sample E)))
      as [w' [Hs [_ [He _]]]].
    exists w'. split; [exact Hs | exact He].
  - vm_compute in E. discriminate.
Defined.

(** ** The cached handle *)

Lemma sync_effect_free_reuses (h : FileSystemDirectoryHandle) (l : list Effect) :
  existsb sync_effect l = false -> forallb (reuses h) l = true.
Proof.
  induction l as [|e l IH]; [reflexivity|]. cbn.
  intros H. apply orb_false_elim in H as [He Hl]. rewrite (IH Hl), andb_true_r.
  destruct e; try reflexivity; try discriminate.
  destruct c; try reflexivity; discriminate.
Qed.

Ltac reuses_tac :=
  eexists; split;
  [ trace_form; rewrite <- ?app_assoc; cbn [app]; reflexivity
  | cbn; rewrite ?String.eqb_refl; reflexivity ].

(** With a handle cached, a step keeps it, does not show the picker, and
    invokes the store's sync on that handle only. *)
Lemma transition_cached (s s' : State) (ks ks' : list TaskKind) (ev : Event)
  (h : FileSystemDirectoryHandle) :
  pool_ok s ks -> directoryRef s = Some h ->
  transition s ks ev s' ks' ->
  directoryRef s' = Some h /\
  exists l, trace s' = trace s ++ l /\ forallb (reuses h) l = true.
Proof.
  intros Hok Hdir Ht. destruct Ht.
  - congruence.
  - assert (h0 = h) as -> by congruence. split; [reflexivity|]. reuses_tac.
  - split; [exact Hdir|]. reuses_tac.
  - destruct H4 as [_ [_ [Hd [_ [l [Hl Hfree]]]]]].
    split; [congruence|]. exists l. split; [exact Hl|].
    apply sync_effect_free_reuses, Hfree.
  - split; [exact Hdir|]. reuses_tac.
  - split; [exact Hdir|]. exists []. split; [symmetry; apply app_nil_r|reflexivity].
  - congruence.
  - assert (h0 = h) as -> by congruence. split; [reflexivity|]. reuses_tac.
  - destruct (pool_ok_picker _ _ _ Hok H). congruence.
  - destruct (pool_ok_picker _ _ _ Hok H). congruence.
  - split; [exact Hdir|]. reuses_tac.
  - split; [exact Hdir|]. reuses_tac.
  - split; [exact Hdir|]. exists []. split; [symmetry; apply app_nil_r|reflexivity].
  - split; [exact Hdir|]. reuses_tac.
Qed.

Lemma run_cached (evs : list Event) (w w' : World) (h : FileSystemDirectoryHandle) :
  Inv w -> directoryRef (comp w) = Some h ->
  run w evs = Some w' ->
  directoryRef (comp w') = Some h /\
  exists l, trace (comp w') = trace (comp w) ++ l /\ forallb (reuses h) l = true.
Proof.
  revert w; induction evs as [|ev evs IH]; intros w Hi Hdir; cbn.
  - intros [= <-]. split; [exact Hdir|].
    exists []. split; [symmetry; apply app_nil_r|reflexivity].
  - destruct (step w ev) as [w1|] eqn:Hstep; [|discriminate]. intros Hrun.
    pose proof (Inv_step _ _ _ Hi Hstep) as Hi1.
    destruct Hi as [Hd [ks [Hp Hok]]].
    destruct (step_transition _ _ _ _ Hd Hp Hstep) as [ks' [Ht _]].
    destruct (transition_cached _ _ _ _ _ h Hok Hdir Ht) as [Hdir1 [l1 [Hl1 Hr1]]].
    destruct (IH w1 Hi1 Hdir1 Hrun) as [Hdir' [l2 [Hl2 Hr2]]].
    split; [exact Hdir'|]. exists (l1 ++ l2). split.
    + rewrite Hl2, Hl1, app_assoc. reflexivity.
    + rewrite forallb_app, Hr1, Hr2. reflexivity.
Qed.

(** C10.  In every state of the component in which a handle [h] is
    cached: whatever happens afterwards, the cached handle is still [h],
    the directory picker is not shown, and every invocation of the store's
    [syncFiles] is on [h]; a click on the sync button sets [isSyncing] and
    invokes the store's [syncFiles] on [h] at once; and when a store call
    in flight rejects, the cached handle and the recorded timestamp stay
    as they were. *)
Theorem cached_handle_is_kept (w : World) (h : FileSystemDirectoryHandle) :
  reachable w ->
  directoryRef (comp w) = Some h ->
  (forall evs w', run w evs = Some w' ->
     directoryRef (comp w') = Some h /\
     forallb (reuses h) (new_effects (comp w) (comp w')) = true) /\
  (forall e w', step w (ClickSync e) = Some w' ->
     new_effects (comp w) (comp w') = [SetIsSyncing true; Store (syncFiles h)]) /\
  (forall i e w', step w (Settle i (StoreSettled (Rejected e))) = Some w' ->
     directoryRef (comp w') = Some h /\
     lastSync (comp w') = lastSync (comp w)).
Proof.
  intros Hr Hdir. apply reachable_Inv in Hr.
  split; [|split].
  - intros evs w' Hrun.
    destruct (run_cached evs w w' h Hr Hdir Hrun) as [Hdir' [l [Hl Hre]]].
    split; [exact Hdir'|]. rewrite (new_effects_app _ _ _ Hl). exact Hre.
  - intros e w' Hstep. destruct Hr as [Hd [ks [Hp Hok]]].
    destruct (step_transition _ _ _ _ Hd Hp Hstep) as [ks' [Ht _]].
    inversion Ht; subst.
    + congruence.
    + assert (h0 = h) as -> by congruence.
      apply new_effects_app. trace_form. reflexivity.
    + exfalso. eapply H. reflexivity.
  - intros i e w' Hstep. destruct Hr as [Hd [ks [Hp Hok]]].
    destruct (step_transition _ _ _ _ Hd Hp Hstep) as [ks' [Ht _]].
    inversion Ht; subst.
    + exfalso. eapply H3. reflexivity.
    + split; [exact Hdir | reflexivity].
    + split; [exact Hdir | reflexivity].
Qed.

(** After the folder is picked: the store's sync fails, the user clicks
    again, the file set changes; the handle ["project"] stays. *)
Lemma cached_handle_is_kept_witness :
  match sample_world_syncing with
  | Some w =>
      directoryRef (comp w) = Some "project" /\
      match run w [Settle 0 (StoreSettled (Rejected SyncError));
                   ClickSync sample_click; FilesChange []] with
      | Some w' =>
          directoryRef (comp w') = Some "project" /\
          forallb (reuses "project") (new_effects (comp w) (comp w')) = true
      | None => False
      end
  | None => False
  end.
Proof.
  unfold sample_world_syncing.
  destruct (run sample_world
              [ClickSync sample_click;
               Settle 0 (PickerSettled (Resolved "project"))]) as [w|] eqn:E.
  - assert (Hdir : directoryRef (comp w) = Some "project")
      by (vm_compute in E; injection E as <-; reflexivity).
    split; [exact Hdir|].
    destruct (run w [Settle 0 (StoreSettled (Rejected SyncError));
                     ClickSync sample_click; FilesChange []]) as [w'|] eqn:E'.
    + exact (proj1 (cached_handle_is_kept w "project"
                      (reachable_run sample_world w _ reachable_sample E) Hdir)
               _ w' E').
    + vm_compute in E. injection E as <-. vm_compute in E'. discriminate.
  - vm_compute in E. discriminate.
Defined.

(** ** Syncs in flight *)

(** C6 as stated fails: after the user has picked a folder, a change of
    the file set that arrives while the store's sync is still in flight
    invokes the store's [syncFiles] a second time. *)
Lemma file_change_starts_second_sync :
  exists w,
    run sample_world overlapping_events = Some w /\
    reachable w /\
    isSyncing (comp w) = true /\
    store_syncs_in_flight w = 2%nat /\
    ~ (syncs_in_flight w <= 1)%nat.
Proof.
  destruct (run sample_world overlapping_events) as [w|] eqn:E.
  - exists w. split; [reflexivity|].
    split; [exact (reachable_run _ _ _ reachable_sample E)|].
    vm_compute in E. injection E as <-.
    split; [reflexivity|]. split; [reflexivity|].
    vm_compute. intros H. inversion H as [|n H1]. inversion H1.
  - vm_compute in E. discriminate.
Qed.

(** As long as no file-set change arrives while a sync is in flight on a
    cached handle, [isSyncing] says whether a sync is in flight, and there
    is at most one. *)
Lemma transition_quiet (s s' : State) (ks ks' : list TaskKind) (ev : Event) :
  sync_count ks = (if isSyncing s then 1 else 0)%nat ->
  (forall fs, ev = FilesChange fs -> sync_count ks = 0%nat \/ directoryRef s = None) ->
  transition s ks ev s' ks' ->
  sync_count ks' = (if isSyncing s' then 1 else 0)%nat.
Proof.
  unfold sync_count. intros Hc Hq Ht. destruct Ht.
  - rewrite H in Hc. rewrite filter_app_l1, length_app, Hc. reflexivity.
  - rewrite H in Hc. rewrite filter_app_l1, length_app, Hc. reflexivity.
  - rewrite filter_app_l1, length_app, Hc. cbn. lia.
  - destruct H4 as [-> _]. exact Hc.
  - exact Hc.
  - exact Hc.
  - exact Hc.
  - destruct (Hq fs eq_refl) as [H0|H0]; [|congruence].
    rewrite filter_app_l1, length_app, H0. reflexivity.
  - pose proof (filter_remove_nth is_sync_kind _ _ _ H) as Hr.
    rewrite filter_app_l1, length_app. cbn in *.
    destruct (isSyncing s); lia.
  - pose proof (filter_remove_nth is_sync_kind _ _ _ H) as Hr.
    cbn in *. destruct (isSyncing s); lia.
  - pose proof (filter_remove_nth is_sync_kind _ _ _ H) as Hr.
    cbn in *. destruct (isSyncing s); lia.
  - pose proof (filter_remove_nth is_sync_kind _ _ _ H) as Hr.
    cbn in *. destruct (isSyncing s); lia.
  - rewrite (filter_remove_nth_neg is_sync_kind _ _ _ H eq_refl). exact Hc.
  - rewrite (filter_remove_nth_neg is_sync_kind _ _ _ H eq_refl). exact Hc.
Qed.

Lemma run_quiet_count (evs : list Event) (w w' : World) :
  Inv w ->
  syncs_in_flight w = (if isSyncing (comp w) then 1 else 0)%nat ->
  run_quiet w evs = Some w' ->
  syncs_in_flight w' = (if isSyncing (comp w') then 1 else 0)%nat.
Proof.
  revert w; induction evs as [|ev evs IH]; intros w Hi Hc; cbn.
  - intros [= <-]. exact Hc.
  - destruct (quiet w ev) eqn:Hq; [|discriminate].
    destruct (step w ev) as [w1|] eqn:Hstep; [|discriminate].
    apply IH; [eapply Inv_step; eauto|].
    destruct Hi as [Hd [ks [Hp Hok]]].
    destruct (step_transition _ _ _ _ Hd Hp Hstep) as [ks' [Ht [Hp' _]]].
    rewrite (syncs_in_flight_kinds _ _ Hp'). rewrite (syncs_in_flight_kinds _ _ Hp) in Hc.
    apply (transition_quiet (comp w) (comp w1) ks ks' ev Hc); [|exact Ht].
    intros fs ->. cbn in Hq. rewrite (syncs_in_flight_kinds _ _ Hp) in Hq.
    apply orb_prop in Hq as [Hq|Hq].
    + left. apply Nat.eqb_eq, Hq.
    + right. destruct (directoryRef (comp w)); [discriminate|reflexivity].
Qed.

Lemma click_disabled_while_syncing (w : World) (e : MouseEvent) :
  isSyncing (comp w) = true -> step w (ClickSync e) = None.
Proof.
  intros H. cbn. destruct (sync_clickable w) eqn:Hc; [|reflexivity].
  apply sync_clickable_idle in Hc. congruence.
Qed.

(** C6, amended.  Along every sequence of events in which no change of
    the file set arrives while a sync is in flight on a cached handle, at
    most one sync is in flight, and one is in flight exactly while
    [isSyncing] is true; and in any state a click on the sync button while
    [isSyncing] is true starts nothing, the button being disabled. *)
Theorem at_most_one_sync_without_file_change
  (p : WorkspaceProps) (hasPicker : bool) (st : StoreInit) (t0 : Z)
  (evs : list Event) (w : World) :
  run_quiet (mount p hasPicker st t0) evs = Some w ->
  (syncs_in_flight w <= 1)%nat /\
  (store_syncs_in_flight w <= syncs_in_flight w)%nat /\
  (isSyncing (comp w) = true <-> syncs_in_flight w = 1%nat) /\
  (forall e, isSyncing (comp w) = true -> step w (ClickSync e) = None).
Proof.
  intros Hrun.
  assert (Hc : syncs_in_flight w = (if isSyncing (comp w) then 1 else 0)%nat).
  { apply (run_quiet_count evs (mount p hasPicker st t0)); [apply Inv_mount| |exact Hrun].
    unfold mount. destruct hasPicker, (init_previews st) as [|x l] eqn:Hp; cbn;
      rewrite ?Hp; reflexivity. }
  split; [rewrite Hc; destruct (isSyncing (comp w)); lia|].
  split.
  { unfold store_syncs_in_flight, syncs_in_flight.
    induction (pending w) as [|t l IH]; [cbn; lia|].
    unfold in_sync in *. cbn [filter].
    destruct (awaits_sync t), (awaits_picker t); cbn; lia. }
  split.
  { rewrite Hc. destruct (isSyncing (comp w)); split; congruence. }
  intros e. apply click_disabled_while_syncing.
Qed.

(** The file set changes while the picker is open and again after the
    first sync has ended: one sync at a time. *)
Lemma at_most_one_sync_without_file_change_witness :
  match run_quiet sample_world
          [ClickSync sample_click; FilesChange [];
           Settle 0 (PickerSettled (Resolved "project"));
           Settle 0 (StoreSettled (Resolved tt));
           FilesChange [("index.ts", "export default 1")]] with
  | Some w => (syncs_in_flight w <= 1)%nat
  | None => False
  end.
Proof.
  destruct (run_quiet sample_world
          [ClickSync sample_click; FilesChange [];
           Settle 0 (PickerSettled (Resolved "project"));
           Settle 0 (StoreSettled (Resolved tt));
           FilesChange [("index.ts", "export default 1")]]) as [w|] eqn:E.
  - exact (proj1 (at_most_one_sync_without_file_change
                    sample_props true sample_store 1000 _ w E)).
  - vm_compute in E. discriminate.
Defined.

(** ** One call and the event loop agree *)

(** [exec] is [advance] repeated: run to the next suspension, let the time
    pass, continue with the outcome. *)
Lemma exec_advance {A : Type} (env : Env) (p : Prog A) (s : State) :
  exec env p s =
  match advance p s with
  | (Ret a, s1) => (Normal a, s1)
  | (Throw e, s1) => (Abrupt e, s1)
  | (AwaitPicker k, s1) =>
      exec env (k (picker_outcome env)) (elapse (picker_ms env) s1)
  | (AwaitStore c k, s1) =>
      exec env (k (store_outcome env c)) (elapse (store_ms env c) s1)
  | (q, s1) => exec env q s1
  end.
Proof.
  revert s; induction p; intros s; cbn; auto.
Qed.

Lemma step_tick (w : World) (ms : N) :
  step w (Tick ms) = Some (with_comp (elapse ms (comp w)) w).
Proof. reflexivity. Qed.

Lemma step_settle_sync (pr : WorkspaceProps) (s : State) (dep : bool)
  (h : FileSystemDirectoryHandle) (o : Outcome unit) :
  dep = hasPreview s ->
  step (mkWorld pr s dep [task_of (KSync h)]) (Settle 0 (StoreSettled o)) =
  Some (mkWorld pr
          (match o with
           | Resolved _ => finished (recorded s)
           | Rejected e => finished (failed e s)
           end) dep []).
Proof.
  intros ->.
  cbn [step nth_error task_of remove_nth comp props dep_hasPreview pending].
  destruct o;
    (erewrite spawn_ends;
     [ | cbn [comp]; rewrite resume_sync; reflexivity | reflexivity | reflexivity ]);
    reflexivity.
Qed.

Lemma step_settle_picker (pr : WorkspaceProps) (s : State) (dep : bool)
  (o : Outcome FileSystemDirectoryHandle) :
  dep = hasPreview s ->
  step (mkWorld pr s dep [task_of KPicker]) (Settle 0 (PickerSettled o)) =
  Some (match o with
        | Resolved h => mkWorld pr (store_called h s) dep [task_of (KSync h)]
        | Rejected e => mkWorld pr (finished (failed e s)) dep []
        end).
Proof.
  intros ->.
  cbn [step nth_error task_of remove_nth comp props dep_hasPreview pending].
  destruct o as [h|e].
  - erewrite (spawn_suspends _ _ (KSync h));
      [ | cbn [comp]; rewrite resume_picker; reflexivity | reflexivity | reflexivity ].
    reflexivity.
  - erewrite spawn_ends;
      [ | cbn [comp]; rewrite resume_picker; reflexivity | reflexivity | reflexivity ].
    reflexivity.
Qed.

Lemma step_click (pr : WorkspaceProps) (s : State) (e : MouseEvent) :
  sync_clickable (mkWorld pr s (hasPreview s) []) = true ->
  step (mkWorld pr s (hasPreview s) []) (ClickSync e) =
  Some (match directoryRef s with
        | Some h => mkWorld pr (store_called h (started s)) (hasPreview s) [task_of (KSync h)]
        | None => mkWorld pr (prompted (started s)) (hasPreview s) [task_of KPicker]
        end).
Proof.
  intros Hc. cbn [step]. rewrite Hc.
  destruct (directoryRef s) as [h|] eqn:Hdir.
  - erewrite (spawn_suspends _ _ (KSync h));
      [ | cbn [comp]; rewrite advance_handleSyncFiles; unfold proceeds; rewrite Hdir; reflexivity
        | reflexivity | reflexivity ].
    reflexivity.
  - erewrite (spawn_suspends _ _ KPicker);
      [ | cbn [comp]; rewrite advance_handleSyncFiles; unfold proceeds; rewrite Hdir; reflexivity
        | reflexivity | reflexivity ].
    reflexivity.
Qed.

(** X16.  A sync by hand with nothing else going on: played by the
    event loop (the click, then for each [await] the time that passes and
    the settlement), the call ends in the state it reaches when followed
    on its own, with no call left suspended, for every outcome of the
    picker and of the store. *)
Lemma click_run_agrees_with_exec (pr : WorkspaceProps) (s : State) (e : MouseEvent)
  (env : Env) :
  sync_clickable (mkWorld pr s (hasPreview s) []) = true ->
  run (mkWorld pr s (hasPreview s) []) (sync_events env s e) =
  Some (mkWorld pr (snd (exec env (handleSyncFiles (Some e)) s)) (hasPreview s) []).
Proof.
  intros Hc. rewrite exec_handleSyncFiles. cbn [snd].
  unfold sync_events, proceeds. rewrite orb_true_r.
  cbn [run]. rewrite (step_click pr s e Hc).
  destruct (directoryRef s) as [h|] eqn:Hdir.
  - cbn [run]. rewrite step_tick. unfold with_comp. cbn [comp props dep_hasPreview pending].
    rewrite step_settle_sync by reflexivity. unfold after_store.
    destruct (store_outcome env (AwaitSyncFiles h)); reflexivity.
  - cbn [run]. rewrite step_tick. unfold with_comp. cbn [comp props dep_hasPreview pending].
    rewrite step_settle_picker by reflexivity.
    destruct (picker_outcome env) as [h|err]; [|reflexivity].
    cbn [run]. rewrite step_tick. unfold with_comp. cbn [comp props dep_hasPreview pending].
    rewrite step_settle_sync by reflexivity. unfold after_store.
    destruct (store_outcome env (AwaitSyncFiles h)); reflexivity.
Qed.

(** ** The state after each event *)

Ltac absurd_event :=
  exfalso;
  match goal with
  | H : forall _ _, _ <> _ |- _ => solve [eapply H; reflexivity]
  | H : forall _, _ <> _ |- _ => solve [eapply H; reflexivity]
  | H : _ <> _ |- _ => solve [apply H; reflexivity]
  end.

Ltac table_tac :=
  repeat match goal with
         | H : directoryRef _ = _ |- _ => rewrite H
         | H : nth_error _ _ = _ |- _ => rewrite H
         | H : hasPreview _ = _ |- _ => rewrite H
         | H : nonempty _ = _ |- _ => rewrite H
         | H : _ \/ _ |- _ => destruct H
         | u : unit |- _ => destruct u
         end;
  rewrite ?andb_false_r; try reflexivity.

(** The event loop follows the table [next_state]. *)
Lemma step_next_state (w w' : World) (ev : Event) (ks : list TaskKind) :
  dep_hasPreview w = hasPreview (comp w) ->
  pending w = map task_of ks ->
  step w ev = Some w' ->
  comp w' = next_state (comp w) ks ev /\ props w' = next_props (props w) ev.
Proof.
  intros Hd Hp Hstep.
  assert (Hprops : props w' = next_props (props w) ev).
  { destruct ev; unfold step, gesture, publish in Hstep;
      try (destruct (panel_rendered w); [|discriminate]);
      try (destruct (sync_clickable w); [|discriminate]);
      try (injection Hstep as <-);
      try (unfold commit, spawn; cbn;
           repeat match goal with
                  | |- context [Bool.eqb ?a ?b] => destruct (Bool.eqb a b)
                  | |- context [let (_, _) := ?x in _] => destruct x as [[] ?]
                  end; reflexivity).
    destruct (nth_error (pending w) i) as [[]|]; try discriminate;
      destruct r; try discriminate; injection Hstep as <-;
      unfold commit, spawn; cbn;
      repeat match goal with
             | |- context [Bool.eqb ?a ?b] => destruct (Bool.eqb a b)
             | |- context [let (_, _) := ?x in _] => destruct x as [[] ?]
             end; reflexivity. }
  split; [|exact Hprops]. clear Hprops.
  pose proof (step_transition _ _ _ _ Hd Hp Hstep) as [ks' [Ht _]].
  destruct ev; cbn [next_state].
  all: try (unfold step, gesture, publish in Hstep;
            destruct (panel_rendered w); [|discriminate];
            erewrite spawn_ends in Hstep; [ | reflexivity | reflexivity | exact Hd];
            injection Hstep as <-; reflexivity).
  all: try (unfold step, publish in Hstep;
            rewrite commit_false_settled in Hstep by (cbn; rewrite Hd; reflexivity);
            injection Hstep as <-; reflexivity).
  all: inversion Ht; subst; try absurd_event; table_tac.
  injection Hstep as <-. reflexivity.
Qed.

Lemma step_next_kinds (w w' : World) (ev : Event) (ks : list TaskKind) :
  dep_hasPreview w = hasPreview (comp w) ->
  pending w = map task_of ks ->
  step w ev = Some w' ->
  pending w' = map task_of (next_kinds (comp w) ks ev) /\
  dep_hasPreview w' = hasPreview (comp w').
Proof.
  intros Hd Hp Hstep.
  destruct (step_transition _ _ _ _ Hd Hp Hstep) as [ks' [Ht [Hp' Hd']]].
  split; [|exact Hd']. rewrite Hp'. f_equal.
  inversion Ht; subst; cbn [next_kinds]; table_tac.
  destruct ev; try reflexivity; absurd_event.
Qed.

(** Induction along a run of the event loop. *)
Lemma run_invariant (P : World -> Prop) :
  (forall w w' ev, Inv w -> P w -> step w ev = Some w' -> P w') ->
  forall evs w w', Inv w -> P w -> run w evs = Some w' -> P w'.
Proof.
  intros Hstep evs. induction evs as [|ev evs IH]; intros w w' Hi HP; cbn.
  - intros [= <-]. exact HP.
  - destruct (step w ev) as [w1|] eqn:Hs; [|discriminate].
    apply IH; [eapply Inv_step; eauto | eapply Hstep; eauto].
Qed.

Lemma new_effects_same (s s' : State) :
  trace s' = trace s -> new_effects s s' = [].
Proof.
  intros H. apply new_effects_app. rewrite app_nil_r. exact H.
Qed.

(** The trace only grows, by the effects of the event. *)
Lemma next_state_trace (s : State) (ks : list TaskKind) (ev : Event) :
  trace (next_state s ks ev) = trace s ++ next_effects s ks ev.
Proof.
  unfold next_effects, new_effects.
  assert (H : exists l, trace (next_state s ks ev) = trace s ++ l).
  { destruct ev; cbn [next_state];
      repeat match goal with
             | |- context [match ?x with _ => _ end] => destruct x
             end;
      first [ exists []; rewrite app_nil_r; reflexivity
            | eexists; trace_form; cbn; rewrite <- ?app_assoc; reflexivity ]. }
  destruct H as [l ->].
  rewrite skipn_app, skipn_all, Nat.sub_diag. reflexivity.
Qed.

Lemma step_new_effects (w w' : World) (ev : Event) (ks : list TaskKind) :
  dep_hasPreview w = hasPreview (comp w) ->
  pending w = map task_of ks ->
  step w ev = Some w' ->
  new_effects (comp w) (comp w') = next_effects (comp w) ks ev.
Proof.
  intros Hd Hp Hstep.
  destruct (step_next_state _ _ _ _ Hd Hp Hstep) as [-> _]. reflexivity.
Qed.

Lemma click_enabled (w w' : World) (e : MouseEvent) :
  step w (ClickSync e) = Some w' ->
  chatStarted (props w) = Some true /\
  isSyncFeatureAvailable (comp w) = true /\
  isSyncing (comp w) = false.
Proof.
  cbn. unfold sync_clickable, render.
  destruct (chatStarted (props w)) as [[|]|]; try discriminate. cbn.
  destruct (isSyncFeatureAvailable (comp w)), (isSyncing (comp w));
    try discriminate. auto.
Qed.

Lemma settle_enabled (w w' : World) (i : nat) (r : Settlement) (ks : list TaskKind) :
  pending w = map task_of ks ->
  step w (Settle i r) = Some w' ->
  exists k, nth_error ks i = Some k /\
    match k, r with
    | KPicker, PickerSettled _ | KSync _, StoreSettled _ | KSave, StoreSettled _ => True
    | _, _ => False
    end.
Proof.
  intros Hp. cbn. rewrite Hp, nth_error_map.
  destruct (nth_error ks i) as [k|]; [|discriminate].
  exists k. split; [reflexivity|].
  destruct k, r; cbn in *; try discriminate; exact I.
Qed.

Lemma step_settles (w w' : World) (ev : Event) (ks : list TaskKind) :
  pending w = map task_of ks -> step w ev = Some w' -> settles ks ev.
Proof.
  intros Hp Hstep. destruct ev; try exact I.
  destruct (settle_enabled _ _ _ _ _ Hp Hstep) as [k [Hk Hm]].
  cbn. rewrite Hk. destruct k, r; exact Hm.
Qed.

(** ** Mounting *)

(** The state after mounting. *)
Lemma mount_comp (p : WorkspaceProps) (hasPicker : bool) (st : StoreInit) (t0 : Z) :
  comp (mount p hasPicker st t0) =
    mkState false None hasPicker None
      (init_showWorkbench st) (init_showTerminal st)
      (if nonempty (init_previews st) then preview else init_currentView st)
      (init_previews st) (init_files st) t0
      (SetIsSyncFeatureAvailable hasPicker ::
       (if nonempty (init_previews st) then [CurrentViewSet preview] else []) ++
       [Store (setDocuments (init_files st))]) /\
  pending (mount p hasPicker st t0) = [] /\
  props (mount p hasPicker st t0) = p.
Proof.
  unfold mount.
  destruct hasPicker, (init_previews st) as [|x l] eqn:Hp; cbn; rewrite ?Hp;
    repeat split; reflexivity.
Qed.

(** X1.  Mounting runs the probe, the preview effect and the files effect
    in this order: the availability flag is what the probe found, the view
    is [preview] when a preview already exists and the store's view
    otherwise, the file map is passed to the store once, and no sync is
    started: nothing is cached, recorded or suspended, and the picker is
    not shown. *)
Theorem mount_state (p : WorkspaceProps) (hasPicker : bool) (st : StoreInit) (t0 : Z) :
  let w := mount p hasPicker st t0 in
  props w = p /\
  pending w = [] /\
  comp w =
    mkState false None hasPicker None
      (init_showWorkbench st) (init_showTerminal st)
      (if nonempty (init_previews st) then preview else init_currentView st)
      (init_previews st) (init_files st) t0
      (SetIsSyncFeatureAvailable hasPicker ::
       (if nonempty (init_previews st) then [CurrentViewSet preview] else []) ++
       [Store (setDocuments (init_files st))]).
Proof.
  cbv zeta. destruct (mount_comp p hasPicker st t0) as [Hc [Hp Hpr]].
  split; [exact Hpr|]. split; [exact Hp | exact Hc].
Qed.

(** X2.  The availability flag is set by the probe at mount and by
    nothing else: in every later state it is what the probe found. *)
Theorem sync_feature_probed_once
  (p : WorkspaceProps) (hasPicker : bool) (st : StoreInit) (t0 : Z)
  (evs : list Event) (w : World) :
  run (mount p hasPicker st t0) evs = Some w ->
  isSyncFeatureAvailable (comp w) = hasPicker.
Proof.
  apply (run_invariant (fun w => isSyncFeatureAvailable (comp w) = hasPicker)).
  - intros w0 w1 ev [Hd [ks [Hp _]]] HP Hstep.
    destruct (step_next_state _ _ _ _ Hd Hp Hstep) as [-> _].
    rewrite <- HP.
    destruct ev; cbn [next_state];
      repeat match goal with
             | |- context [match ?x with _ => _ end] => destruct x
             end; reflexivity.
  - apply Inv_mount.
  - destruct (mount_comp p hasPicker st t0) as [-> _]. reflexivity.
Qed.

Lemma sync_feature_probed_once_witness :
  match run (mount sample_props false sample_store 1000)
          [ClickExport; FilesChange []; Tick 10] with
  | Some w => isSyncFeatureAvailable (comp w) = false
  | None => False
  end.
Proof.
  destruct (run (mount sample_props false sample_store 1000)
              [ClickExport; FilesChange []; Tick 10]) as [w|] eqn:E.
  - exact (sync_feature_probed_once sample_props false sample_store 1000 _ w E).
  - vm_compute in E. discriminate.
Defined.

(** ** Counting the syncs in flight *)

Lemma sync_count_app (ks : list TaskKind) (k : TaskKind) :
  sync_count (ks ++ [k]) = (sync_count ks + (if is_sync_kind k then 1 else 0))%nat.
Proof.
  unfold sync_count. rewrite filter_app_l1, length_app.
  destruct (is_sync_kind k); reflexivity.
Qed.

Lemma sync_count_remove (ks : list TaskKind) (i : nat) (k : TaskKind) :
  nth_error ks i = Some k ->
  sync_count ks = ((if is_sync_kind k then 1 else 0) + sync_count (remove_nth i ks))%nat.
Proof. apply filter_remove_nth. Qed.

Lemma pending_kind (w : World) (ks : list TaskKind) (i : nat) (t : Prog unit) :
  pending w = map task_of ks ->
  nth_error (pending w) i = Some t ->
  exists k, nth_error ks i = Some k /\ t = task_of k.
Proof.
  intros -> H. rewrite nth_error_map in H.
  destruct (nth_error ks i) as [k|]; [|discriminate].
  injection H as <-. exists k. split; reflexivity.
Qed.

(** How the sync cells and the count of syncs in flight move together. *)
Lemma step_sync_count (w w' : World) (ev : Event) (ks : list TaskKind) :
  dep_hasPreview w = hasPreview (comp w) ->
  pending w = map task_of ks ->
  step w ev = Some w' ->
  (isSyncing (comp w') = true /\ (1 <= syncs_in_flight w')%nat) \/
  (isSyncing (comp w') = false /\
   (syncs_in_flight w' = syncs_in_flight w - 1 \/ syncs_in_flight w' = syncs_in_flight w)%nat) \/
  (isSyncing (comp w') = isSyncing (comp w) /\ syncs_in_flight w' = syncs_in_flight w).
Proof.
  intros Hd Hp Hstep.
  destruct (step_next_state _ _ _ _ Hd Hp Hstep) as [Hs _].
  destruct (step_next_kinds _ _ _ _ Hd Hp Hstep) as [Hp' _].
  rewrite (syncs_in_flight_kinds _ _ Hp'), (syncs_in_flight_kinds _ _ Hp), Hs.
  fold (sync_count (next_kinds (comp w) ks ev)). fold (sync_count ks).
  destruct ev; cbn [next_state next_kinds]; try (right; right; split; reflexivity).
  - (* ClickSync *)
    left. rewrite sync_count_app.
    destruct (directoryRef (comp w)); cbn; split; try reflexivity; lia.
  - (* FileSave *)
    right. right. rewrite sync_count_app. cbn. split; [reflexivity|lia].
  - (* PreviewsChange *)
    right. right.
    destruct (negb (hasPreview (comp w)) && nonempty ps); split; reflexivity.
  - (* FilesChange *)
    destruct (directoryRef (comp w)).
    + left. rewrite sync_count_app. cbn. split; [reflexivity|lia].
    + right. right. split; reflexivity.
  - (* Settle *)
    destruct (settle_enabled _ _ _ _ _ Hp Hstep) as [k [Hk Hm]].
    pose proof (sync_count_remove _ _ _ Hk) as Hc. rewrite Hk.
    destruct k, r as [[h'|e]|[u|e]]; try contradiction; cbn in *;
      rewrite ?sync_count_app; cbn.
    + right. right. split; [reflexivity|lia].
    + right. left. split; [reflexivity|lia].
    + right. left. split; [reflexivity|lia].
    + right. left. split; [reflexivity|lia].
    + right. right. split; [reflexivity|lia].
    + right. right. split; [reflexivity|lia].
Qed.

(** X3.  In every state of the component, [isSyncing] is true only while
    a call of [handleSyncFiles] is in flight: the spinner and the text
    "Syncing..." are never shown with nothing going on. *)
Theorem syncing_flag_means_sync_in_flight (w : World) :
  reachable w ->
  isSyncing (comp w) = true ->
  (1 <= syncs_in_flight w)%nat.
Proof.
  intros [p [hp [st [t0 [evs Hrun]]]]].
  revert Hrun.
  apply (run_invariant
           (fun w => isSyncing (comp w) = true -> (1 <= syncs_in_flight w)%nat)).
  - intros w0 w1 ev [Hd [ks [Hp _]]] HP Hstep.
    destruct (step_sync_count _ _ _ _ Hd Hp Hstep) as [[_ H]|[[H _]|[H1 H2]]].
    + intros _. exact H.
    + congruence.
    + rewrite H1, H2. exact HP.
  - apply Inv_mount.
  - destruct (mount_comp p hp st t0) as [-> _]. discriminate.
Qed.

Lemma syncing_flag_means_sync_in_flight_witness :
  match sample_world_syncing with
  | Some w => (1 <= syncs_in_flight w)%nat
  | None => False
  end.
Proof.
  unfold sample_world_syncing.
  destruct (run sample_world
              [ClickSync sample_click;
               Settle 0 (PickerSettled (Resolved "project"))]) as [w|] eqn:E.
  - apply (syncing_flag_means_sync_in_flight w).
    + exact (reachable_run sample_world w _ reachable_sample E).
    + vm_compute in E. injection E as <-. reflexivity.
  - vm_compute in E. discriminate.
Defined.

(** X4.  The converse fails by design of the [finally] block: when two
    or more syncs are in flight and the store call of one of them settles,
    that call clears [isSyncing] although another sync is still running;
    the spinner goes away and the button is enabled again. *)
Theorem first_completion_clears_flag_early
  (w : World) (i : nat) (t : Prog unit) (o : Outcome unit) :
  reachable w ->
  nth_error (pending w) i = Some t ->
  awaits_sync t = true ->
  (2 <= syncs_in_flight w)%nat ->
  exists w',
    step w (Settle i (StoreSettled o)) = Some w' /\
    isSyncing (comp w') = false /\
    (1 <= syncs_in_flight w')%nat /\
    sync_spinner (panel (props w') (comp w')) = false /\
    sync_disabled (panel (props w') (comp w')) =
      negb (isSyncFeatureAvailable (comp w)).
Proof.
  intros Hr Hi Ht Hn. apply reachable_Inv in Hr. destruct Hr as [Hd [ks [Hp _]]].
  destruct (pending_kind _ _ _ _ Hp Hi) as [k [Hk ->]].
  destruct k as [|h|]; try discriminate.
  destruct (step w (Settle i (StoreSettled o))) as [w'|] eqn:Hstep.
  2:{ cbn in Hstep. rewrite Hp, nth_error_map, Hk in Hstep. discriminate. }
  exists w'. split; [reflexivity|].
  destruct (step_next_state _ _ _ _ Hd Hp Hstep) as [Hs _].
  destruct (step_next_kinds _ _ _ _ Hd Hp Hstep) as [Hp' _].
  rewrite (syncs_in_flight_kinds _ _ Hp') in *.
  rewrite (syncs_in_flight_kinds _ _ Hp) in Hn.
  fold (sync_count ks) in Hn.
  fold (sync_count (next_kinds (comp w) ks (Settle i (StoreSettled o)))).
  pose proof (sync_count_remove _ _ _ Hk) as Hc. cbn in Hc.
  unfold panel. cbn [sync_spinner sync_disabled]. rewrite Hs.
  cbn [next_state next_kinds]. rewrite Hk.
  destruct o; cbn; rewrite orb_false_r; repeat split; try reflexivity; lia.
Qed.

Lemma first_completion_clears_flag_early_witness :
  match run sample_world overlapping_events with
  | Some w =>
      exists w',
        step w (Settle 0 (StoreSettled (Resolved tt))) = Some w' /\
        isSyncing (comp w') = false /\
        (1 <= syncs_in_flight w')%nat
  | None => False
  end.
Proof.
  destruct (run sample_world overlapping_events) as [w|] eqn:E.
  - destruct (first_completion_clears_flag_early w 0
                (task_of (KSync "project")) (Resolved tt)
                (reachable_run sample_world w _ reachable_sample E))
      as [w' [H1 [H2 [H3 _]]]].
    + vm_compute in E. injection E as <-. reflexivity.
    + reflexivity.
    + vm_compute in E. injection E as <-. vm_compute. lia.
    + exists w'. auto.
  - vm_compute in E. discriminate.
Defined.

(** ** The clock and the recorded timestamp *)

Lemma next_state_clock (s : State) (ks : list TaskKind) (ev : Event) :
  clock (next_state s ks ev) =
  clock s + match ev with Tick ms => Z.of_N ms | _ => 0 end.
Proof.
  destruct ev; cbn [next_state];
    repeat match goal with
           | |- context [match ?x with _ => _ end] => destruct x
           end; cbn; lia.
Qed.

Lemma next_state_lastSync (s : State) (ks : list TaskKind) (ev : Event) :
  lastSync (next_state s ks ev) = lastSync s \/
  lastSync (next_state s ks ev) = Some (clock s).
Proof.
  destruct ev; cbn [next_state];
    repeat match goal with
           | |- context [match ?x with _ => _ end] => destruct x
           end; cbn; auto.
Qed.

Lemma step_timestamp_ok (w w' : World) (ev : Event) :
  Inv w -> timestamp_ok (comp w) -> step w ev = Some w' ->
  timestamp_ok (comp w').
Proof.
  intros [Hd [ks [Hp _]]] Hok Hstep t.
  destruct (step_next_state _ _ _ _ Hd Hp Hstep) as [-> _].
  rewrite next_state_clock.
  destruct (next_state_lastSync (comp w) ks ev) as [-> | ->].
  - intros H. apply Hok in H. destruct ev; lia.
  - intros [= <-]. destruct ev; lia.
Qed.

Lemma reachable_timestamp_ok (w : World) : reachable w -> timestamp_ok (comp w).
Proof.
  intros [p [hp [st [t0 [evs Hrun]]]]]. revert Hrun.
  apply (run_invariant (fun w => timestamp_ok (comp w))).
  - intros w0 w1 ev Hi. apply step_timestamp_ok, Hi.
  - apply Inv_mount.
  - destruct (mount_comp p hp st t0) as [-> _]. intros t. discriminate.
Qed.

(** X5.  In every state of the component the recorded timestamp, if
    there is one, is a past reading of the clock, so the number of seconds
    the sync button reports is not negative. *)
Theorem last_sync_not_in_future (w : World) (t : Z) :
  reachable w ->
  lastSync (comp w) = Some t ->
  t <= clock (comp w) /\ 0 <= (clock (comp w) - t) / 1000.
Proof.
  intros Hr Ht. pose proof (reachable_timestamp_ok w Hr t Ht) as H.
  split; [exact H|]. apply Z.div_pos; lia.
Qed.

Lemma last_sync_not_in_future_witness :
  match run sample_world
          (sync_events (sample_env (Resolved tt) 30) sample_state sample_click
           ++ [Tick 125000]) with
  | Some w => 2530 <= clock (comp w) /\ 0 <= (clock (comp w) - 2530) / 1000
  | None => False
  end.
Proof.
  destruct (run sample_world
              (sync_events (sample_env (Resolved tt) 30) sample_state sample_click
               ++ [Tick 125000])) as [w|] eqn:E.
  - apply (last_sync_not_in_future w 2530).
    + exact (reachable_run sample_world w _ reachable_sample E).
    + vm_compute in E. injection E as <-. reflexivity.
  - vm_compute in E. discriminate.
Defined.



(** ** The text of the sync button *)



(** ** What the handlers never do *)

Lemma sync_count_zero_kind (ks : list TaskKind) (i : nat) (k : TaskKind) :
  sync_count ks = 0%nat -> nth_error ks i = Some k -> k = KSave.
Proof.
  intros H0 Hk. pose proof (sync_count_remove _ _ _ Hk) as Hc.
  destruct k; cbn in Hc; try lia. reflexivity.
Qed.

Ltac eff :=
  first [ rewrite new_effects_same by reflexivity
        | erewrite new_effects_app
            by (trace_form; cbn; rewrite <- ?app_assoc; reflexivity) ].

(** With nothing cached and no sync in flight, only a click on the sync
    button adds an effect of a sync. *)
Lemma next_effects_idle (s : State) (ks : list TaskKind) (ev : Event) :
  (forall e, ev <> ClickSync e) ->
  directoryRef s = None ->
  sync_count ks = 0%nat ->
  existsb sync_effect (next_effects s ks ev) = false.
Proof.
  intros Hev Hdir Hn. unfold next_effects.
  destruct ev; cbn [next_state]; rewrite ?Hdir;
    try (eff; reflexivity).
  - exfalso. eapply Hev. reflexivity.
  - destruct (negb (hasPreview s) && nonempty ps); eff; reflexivity.
  - destruct (nth_error ks i) as [k|] eqn:Hk.
    + rewrite (sync_count_zero_kind _ _ _ Hn Hk).
      destruct r as [[h|e]|[u|e]]; eff; reflexivity.
    + destruct r; eff; reflexivity.
Qed.

Lemma next_state_idle (s : State) (ks : list TaskKind) (ev : Event) :
  (forall e, ev <> ClickSync e) ->
  settles ks ev ->
  directoryRef s = None ->
  sync_count ks = 0%nat ->
  isSyncFeatureAvailable (next_state s ks ev) = isSyncFeatureAvailable s /\
  directoryRef (next_state s ks ev) = None /\
  lastSync (next_state s ks ev) = lastSync s /\
  isSyncing (next_state s ks ev) = isSyncing s /\
  sync_count (next_kinds s ks ev) = 0%nat.
Proof.
  intros Hev Hset Hdir Hn.
  destruct ev; cbn [next_state next_kinds]; rewrite ?Hdir, ?sync_count_app;
    try (cbn; repeat split; first [reflexivity | assumption | lia]).
  - exfalso. eapply Hev. reflexivity.
  - destruct (negb (hasPreview s) && nonempty ps); cbn; repeat split;
      first [reflexivity | assumption].
  - cbn in Hset. destruct (nth_error ks i) as [k|] eqn:Hk; [|contradiction].
    pose proof (sync_count_remove _ _ _ Hk) as Hc.
    rewrite (sync_count_zero_kind _ _ _ Hn Hk) in *. cbn in Hc.
    destruct r as [[h|e]|[u|e]]; try contradiction; cbn;
      repeat split; first [reflexivity | assumption | lia].
Qed.

(** X8.  In a browser without [showDirectoryPicker] no sync ever happens:
    the sync button stays disabled with its browser hint, nothing is
    cached or recorded, [isSyncing] stays false, no sync is in flight,
    and neither the picker nor the store's [syncFiles] is ever called. *)
Theorem no_sync_without_picker
  (p : WorkspaceProps) (st : StoreInit) (t0 : Z) (evs : list Event) (w : World) :
  run (mount p false st t0) evs = Some w ->
  (forall e, step w (ClickSync e) = None) /\
  syncLabel (comp w) = LiveSyncBrowsers /\
  directoryRef (comp w) = None /\
  lastSync (comp w) = None /\
  isSyncing (comp w) = false /\
  syncs_in_flight w = 0%nat /\
  existsb sync_effect (trace (comp w)) = false.
Proof.
  intros Hrun.
  assert (H : isSyncFeatureAvailable (comp w) = false /\
              directoryRef (comp w) = None /\
              lastSync (comp w) = None /\
              isSyncing (comp w) = false /\
              syncs_in_flight w = 0%nat /\
              existsb sync_effect (trace (comp w)) = false).
  { revert Hrun.
    apply (run_invariant
             (fun w => isSyncFeatureAvailable (comp w) = false /\
                       directoryRef (comp w) = None /\
                       lastSync (comp w) = None /\
                       isSyncing (comp w) = false /\
                       syncs_in_flight w = 0%nat /\
                       existsb sync_effect (trace (comp w)) = false)).
    - intros w0 w1 ev [Hd [ks [Hp _]]] [Hf [Hdir [Hl [Hs [Hn Htr]]]]] Hstep.
      destruct (step_next_state _ _ _ _ Hd Hp Hstep) as [Hs1 _].
      destruct (step_next_kinds _ _ _ _ Hd Hp Hstep) as [Hp1 _].
      rewrite (syncs_in_flight_kinds _ _ Hp1).
      rewrite (syncs_in_flight_kinds _ _ Hp) in Hn.
      fold (sync_count ks) in Hn.
      fold (sync_count (next_kinds (comp w0) ks ev)).
      assert (Hev : forall e, ev <> ClickSync e).
      { intros e ->. destruct (click_enabled _ _ _ Hstep) as [_ [Hf' _]]. congruence. }
      destruct (next_state_idle _ _ _ Hev (step_settles _ _ _ _ Hp Hstep) Hdir Hn)
        as [H1 [H2 [H3 [H4 H5]]]].
      rewrite Hs1, next_state_trace, existsb_app, Htr,
        (next_effects_idle _ _ _ Hev Hdir Hn).
      repeat split; congruence.
    - apply Inv_mount.
    - destruct (mount_comp p false st t0) as [-> [Hp _]].
      unfold syncs_in_flight. rewrite Hp. cbn.
      destruct (nonempty (init_previews st)); repeat split; reflexivity. }
  destruct H as [Hf [Hdir [Hl [Hs [Hn Htr]]]]].
  split.
  { intros e. destruct (step w (ClickSync e)) as [w'|] eqn:Hstep; [|reflexivity].
    destruct (click_enabled _ _ _ Hstep) as [_ [Hf' _]]. congruence. }
  split; [unfold syncLabel; rewrite Hf; reflexivity|].
  repeat split; assumption.
Qed.

Lemma no_sync_without_picker_witness :
  match run (mount sample_props false sample_store 1000)
          [FilesChange []; FileSave; Settle 0 (StoreSettled (Rejected SaveError));
           PreviewsChange ["http://localhost:5173"]] with
  | Some w => syncs_in_flight w = 0%nat /\ directoryRef (comp w) = None
  | None => False
  end.
Proof.
  destruct (run (mount sample_props false sample_store 1000)
              [FilesChange []; FileSave; Settle 0 (StoreSettled (Rejected SaveError));
               PreviewsChange ["http://localhost:5173"]]) as [w|] eqn:E.
  - destruct (no_sync_without_picker sample_props sample_store 1000 _ w E)
      as [_ [_ [Hd [_ [_ [Hn _]]]]]].
    split; assumption.
  - vm_compute in E. discriminate.
Defined.

Ltac in_effects H :=
  cbn in H; repeat (destruct H as [H|H]; try discriminate); try contradiction.

Lemma next_effects_picker (s : State) (ks : list TaskKind) (ev : Event) :
  In ShowDirectoryPicker (next_effects s ks ev) ->
  exists e, ev = ClickSync e /\ directoryRef s = None /\
            next_effects s ks ev = [SetIsSyncing true; ShowDirectoryPicker].
Proof.
  unfold next_effects.
  destruct ev; cbn [next_state];
    repeat match goal with
           | |- context [match ?x with _ => _ end] => destruct x eqn:?
           end;
    eff; intros H; in_effects H.
  eauto.
Qed.

(** X9.  The directory picker is opened by one thing only: a click on
    the sync button while no handle is cached.  No other handler, no
    effect and no settlement opens it. *)
Theorem picker_opened_only_by_click (w w' : World) (ev : Event) :
  reachable w ->
  step w ev = Some w' ->
  In ShowDirectoryPicker (new_effects (comp w) (comp w')) ->
  exists e,
    ev = ClickSync e /\
    directoryRef (comp w) = None /\
    isSyncing (comp w) = false /\
    new_effects (comp w) (comp w') = [SetIsSyncing true; ShowDirectoryPicker].
Proof.
  intros Hr Hstep Hin. apply reachable_Inv in Hr. destruct Hr as [Hd [ks [Hp _]]].
  rewrite (step_new_effects _ _ _ _ Hd Hp Hstep) in *.
  destruct (next_effects_picker _ _ _ Hin) as [e [-> [Hdir He]]].
  exists e. destruct (click_enabled _ _ _ Hstep) as [_ [_ Hs]]. auto.
Qed.

Lemma picker_opened_only_by_click_witness :
  match step sample_world (ClickSync sample_click) with
  | Some w' =>
      exists e,
        ClickSync sample_click = ClickSync e /\
        directoryRef (comp sample_world) = None /\
        isSyncing (comp sample_world) = false /\
        new_effects (comp sample_world) (comp w') =
          [SetIsSyncing true; ShowDirectoryPicker]
  | None => False
  end.
Proof.
  destruct (step sample_world (ClickSync sample_click)) as [w'|] eqn:E.
  - apply (picker_opened_only_by_click sample_world w' _ reachable_sample E).
    vm_compute in E. injection E as <-. vm_compute. auto.
  - vm_compute in E. discriminate.
Defined.

Lemma next_effects_toast (s : State) (ks : list TaskKind) (ev : Event) (msg : string) :
  In (ToastError msg) (next_effects s ks ev) ->
  exists i e, ev = Settle i (StoreSettled (Rejected e)) /\
              nth_error ks i = Some KSave /\
              next_effects s ks ev = [ToastError "Failed to update file content"].
Proof.
  unfold next_effects.
  destruct ev; cbn [next_state];
    repeat match goal with
           | |- context [match ?x with _ => _ end] => destruct x eqn:?
           end;
    eff; intros H; in_effects H.
  eauto.
Qed.

(** X10.  The only thing that shows a toast is the rejection of a save:
    a toast appears exactly when the promise of a [saveCurrentDocument]
    call rejects, one per rejection; failed syncs, cancelled pickers and
    all other events show none. *)
Theorem toast_only_when_save_rejects (w w' : World) (ev : Event) (msg : string) :
  reachable w ->
  step w ev = Some w' ->
  In (ToastError msg) (new_effects (comp w) (comp w')) ->
  exists i e,
    ev = Settle i (StoreSettled (Rejected e)) /\
    nth_error (pending w) i = Some (task_of KSave) /\
    new_effects (comp w) (comp w') = [ToastError "Failed to update file content"].
Proof.
  intros Hr Hstep Hin. apply reachable_Inv in Hr. destruct Hr as [Hd [ks [Hp _]]].
  rewrite (step_new_effects _ _ _ _ Hd Hp Hstep) in *.
  destruct (next_effects_toast _ _ _ _ Hin) as [i [e [-> [Hk He]]]].
  exists i, e. split; [reflexivity|]. split; [|exact He].
  rewrite Hp, nth_error_map, Hk. reflexivity.
Qed.

Lemma toast_only_when_save_rejects_witness :
  match run sample_world [FileSave] with
  | Some w =>
      match step w (Settle 0 (StoreSettled (Rejected SaveError))) with
      | Some w' =>
          exists i e,
            Settle 0 (StoreSettled (Rejected SaveError)) =
              Settle i (StoreSettled (Rejected e)) /\
            nth_error (pending w) i = Some (task_of KSave) /\
            new_effects (comp w) (comp w') =
              [ToastError "Failed to update file content"]
      | None => False
      end
  | None => False
  end.
Proof.
  destruct (run sample_world [FileSave]) as [w|] eqn:E.
  - destruct (step w (Settle 0 (StoreSettled (Rejected SaveError)))) as [w'|] eqn:E'.
    + apply (toast_only_when_save_rejects w w' _ "Failed to update file content"
               (reachable_run sample_world w _ reachable_sample E) E').
      vm_compute in E. injection E as <-.
      vm_compute in E'. injection E' as <-. vm_compute. auto.
    + vm_compute in E. injection E as <-. vm_compute in E'. discriminate.
  - vm_compute in E. discriminate.
Defined.

Lemma next_effects_caught (s : State) (ks : list TaskKind) (ev : Event) (e : JsError) :
  ~ In (Uncaught e) (next_effects s ks ev).
Proof.
  unfold next_effects.
  destruct ev; cbn [next_state];
    repeat match goal with
           | |- context [match ?x with _ => _ end] => destruct x eqn:?
           end;
    eff; intros H; in_effects H.
Qed.

(** X11.  No rejection ever escapes the component: in every
    interleaving of gestures, publications and settlements, however the
    promises of the picker and of the store settle, no handler, effect or
    continuation ends with an uncaught error. *)
Theorem no_exception_escapes
  (p : WorkspaceProps) (hasPicker : bool) (st : StoreInit) (t0 : Z)
  (evs : list Event) (w : World) (e : JsError) :
  run (mount p hasPicker st t0) evs = Some w ->
  ~ In (Uncaught e) (trace (comp w)).
Proof.
  apply (run_invariant (fun w => ~ In (Uncaught e) (trace (comp w)))).
  - intros w0 w1 ev [Hd [ks [Hp _]]] HP Hstep.
    destruct (step_next_state _ _ _ _ Hd Hp Hstep) as [-> _].
    rewrite next_state_trace. intros Hin. apply in_app_or in Hin as [Hin|Hin].
    + exact (HP Hin).
    + exact (next_effects_caught _ _ _ _ Hin).
  - apply Inv_mount.
  - destruct (mount_comp p hasPicker st t0) as [-> _]. cbn.
    destruct (nonempty (init_previews st)); cbn; intuition discriminate.
Qed.

Lemma no_exception_escapes_witness :
  match run sample_world
          [ClickSync sample_click; Settle 0 (PickerSettled (Rejected AbortError));
           FileSave; Settle 0 (StoreSettled (Rejected SaveError))] with
  | Some w => ~ In (Uncaught AbortError) (trace (comp w))
  | None => False
  end.
Proof.
  destruct (run sample_world
              [ClickSync sample_click; Settle 0 (PickerSettled (Rejected AbortError));
               FileSave; Settle 0 (StoreSettled (Rejected SaveError))]) as [w|] eqn:E.
  - exact (no_exception_escapes sample_props true sample_store 1000 _ w AbortError E).
  - vm_compute in E. discriminate.
Defined.

(** ** The toolbar *)

Lemma rendered_gesture (w : World) :
  chatStarted (props w) = Some true -> panel_rendered w = true.
Proof. unfold panel_rendered, render. intros ->. reflexivity. Qed.

Lemma gesture_props (w w' : World) (ev : Event) (ks : list TaskKind) :
  dep_hasPreview w = hasPreview (comp w) ->
  pending w = map task_of ks ->
  step w ev = Some w' ->
  (forall p, ev <> PropsChange p) ->
  props w' = props w.
Proof.
  intros Hd Hp Hstep Hev.
  destruct (step_next_state _ _ _ _ Hd Hp Hstep) as [_ ->].
  destruct ev; try reflexivity. exfalso. eapply Hev. reflexivity.
Qed.

(** X12.  The close button only hides the panel: it writes [false] to
    the store's [showWorkbench], after which the panel is still in the
    tree but animated to the closed width; the view, the cached handle,
    the recorded timestamp and [isSyncing] are untouched and a sync in
    flight stays in flight. *)
Theorem close_only_hides (w : World) :
  reachable w ->
  chatStarted (props w) = Some true ->
  exists w',
    step w ClickClose = Some w' /\
    showWorkbench (comp w') = false /\
    (exists pnl, render (props w') (comp w') = NodeElement pnl /\
                 animate pnl = closed /\
                 slider_selected pnl = currentView (comp w)) /\
    same_cells (comp w) (comp w') /\
    pending w' = pending w /\
    new_effects (comp w) (comp w') = [ShowWorkbenchSet false].
Proof.
  intros Hr Hc. apply reachable_Inv in Hr. destruct Hr as [Hd [ks [Hp _]]].
  destruct (step w ClickClose) as [w'|] eqn:Hstep.
  2:{ cbn in Hstep. unfold gesture in Hstep.
      rewrite (rendered_gesture w Hc) in Hstep. discriminate. }
  exists w'. split; [reflexivity|].
  pose proof (gesture_props _ _ _ _ Hd Hp Hstep ltac:(discriminate)) as Hpr.
  pose proof (step_new_effects _ _ _ _ Hd Hp Hstep) as He.
  destruct (step_next_state _ _ _ _ Hd Hp Hstep) as [Hs _].
  destruct (step_next_kinds _ _ _ _ Hd Hp Hstep) as [Hp' _].
  rewrite He, Hp', Hp, Hpr, Hs. cbn [next_state next_kinds].
  split; [reflexivity|]. split.
  { unfold render. rewrite Hc. eexists. split; [reflexivity|].
    split; reflexivity. }
  split; [repeat split|]. split; [reflexivity|].
  unfold next_effects. cbn [next_state]. eff. reflexivity.
Qed.

Lemma close_only_hides_witness :
  match sample_world_syncing with
  | Some w =>
      exists w', step w ClickClose = Some w' /\
                 showWorkbench (comp w') = false /\
                 pending w' = pending w
  | None => False
  end.
Proof.
  unfold sample_world_syncing.
  destruct (run sample_world
              [ClickSync sample_click;
               Settle 0 (PickerSettled (Resolved "project"))]) as [w|] eqn:E.
  - destruct (close_only_hides w
                (reachable_run sample_world w _ reachable_sample E))
      as [w' [H1 [H2 [_ [_ [H3 _]]]]]].
    + vm_compute in E. injection E as <-. reflexivity.
    + exists w'. auto.
  - vm_compute in E. discriminate.
Defined.

(** X13.  Selecting a view on the slider writes it to the store and the
    next render shows it: the slider marks it, the selected view sits at
    offset 0 and the other one is off screen, the editor to the left and
    the preview to the right.  Nothing else changes, and selecting the
    view that is already shown changes nothing that is rendered. *)
Theorem selected_view_is_shown (w : World) (v : WorkbenchViewType) :
  reachable w ->
  chatStarted (props w) = Some true ->
  exists w' pnl,
    step w (SelectView v) = Some w' /\
    currentView (comp w') = v /\
    render (props w') (comp w') = NodeElement pnl /\
    slider_selected pnl = v /\
    (editor_x pnl, preview_x pnl) =
      match v with
      | code => (AtZero, Plus100)
      | preview => (Minus100, AtZero)
      end /\
    same_cells (comp w) (comp w') /\
    pending w' = pending w /\
    (currentView (comp w) = v ->
     render (props w') (comp w') = render (props w) (comp w)).
Proof.
  intros Hr Hc. apply reachable_Inv in Hr. destruct Hr as [Hd [ks [Hp _]]].
  destruct (step w (SelectView v)) as [w'|] eqn:Hstep.
  2:{ cbn in Hstep. unfold gesture in Hstep.
      rewrite (rendered_gesture w Hc) in Hstep. discriminate. }
  pose proof (gesture_props _ _ _ _ Hd Hp Hstep ltac:(discriminate)) as Hpr.
  destruct (step_next_state _ _ _ _ Hd Hp Hstep) as [Hs _].
  destruct (step_next_kinds _ _ _ _ Hd Hp Hstep) as [Hp' _].
  exists w'. eexists. split; [reflexivity|].
  rewrite Hp', Hp, Hpr, Hs. cbn [next_state next_kinds].
  unfold render. rewrite Hc.
  split; [reflexivity|]. split; [reflexivity|]. split; [reflexivity|].
  split; [destruct v; reflexivity|].
  split; [repeat split|]. split; [reflexivity|].
  intros <-. destruct (comp w); reflexivity.
Qed.

Lemma selected_view_is_shown_witness :
  exists w' pnl,
    step sample_world (SelectView preview) = Some w' /\
    currentView (comp w') = preview /\
    render (props w') (comp w') = NodeElement pnl /\
    slider_selected pnl = preview.
Proof.
  destruct (selected_view_is_shown sample_world preview reachable_sample eq_refl)
    as [w' [pnl [H1 [H2 [H3 [H4 _]]]]]].
  exists w', pnl. auto.
Defined.

(** X14.  The editor callbacks, the export button and the terminal
    toggle only forward: each calls its one store operation with the
    value it was given (the toggle with the negation of the store's
    [showTerminal]), the export button logging first; none of them
    touches the view, the sync state or the suspended calls. *)
Theorem forwarding_handlers_only_forward
  (w w' : World) (ev : Event) (c : StoreCall) :
  reachable w ->
  forwarded_call (comp w) ev = Some c ->
  step w ev = Some w' ->
  new_effects (comp w) (comp w') =
    match ev with
    | ClickExport => [ConsoleLog "handle export"; Store c]
    | _ => [Store c]
    end /\
  same_cells (comp w) (comp w') /\
  currentView (comp w') = currentView (comp w) /\
  showWorkbench (comp w') = showWorkbench (comp w) /\
  pending w' = pending w.
Proof.
  intros Hr Hf Hstep. apply reachable_Inv in Hr. destruct Hr as [Hd [ks [Hp _]]].
  pose proof (step_new_effects _ _ _ _ Hd Hp Hstep) as He.
  destruct (step_next_state _ _ _ _ Hd Hp Hstep) as [Hs _].
  destruct (step_next_kinds _ _ _ _ Hd Hp Hstep) as [Hp' _].
  rewrite He, Hp', Hp, Hs.
  destruct ev; try discriminate; cbn in Hf; injection Hf as <-;
    cbn [next_state next_kinds];
    (split; [unfold next_effects; cbn [next_state]; eff; reflexivity|]);
    repeat split.
Qed.

Lemma forwarding_handlers_only_forward_witness :
  match step sample_world ClickToggleTerminal with
  | Some w' =>
      new_effects (comp sample_world) (comp w') = [Store (toggleTerminal true)]
  | None => False
  end.
Proof.
  destruct (step sample_world ClickToggleTerminal) as [w'|] eqn:E.
  - exact (proj1 (forwarding_handlers_only_forward sample_world w'
                    ClickToggleTerminal (toggleTerminal true)
                    reachable_sample eq_refl E)).
  - vm_compute in E. discriminate.
Defined.

(** X15.  A step changes the view in two ways only: somebody selects a
    view, or the store publishes a non-empty previews list over an empty
    one, which sets [preview].  Syncs, saves, changes of the file set,
    closing the panel and the passing of time leave the view alone. *)
Theorem view_changes_only_by_selection_or_arrival (w w' : World) (ev : Event) :
  reachable w ->
  step w ev = Some w' ->
  currentView (comp w') <> currentView (comp w) ->
  (exists v, (ev = SelectView v \/ ev = CurrentViewChange v) /\
             currentView (comp w') = v) \/
  (exists ps, ev = PreviewsChange ps /\ previews (comp w) = [] /\ ps <> [] /\
              currentView (comp w') = preview).
Proof.
  intros Hr Hstep Hne. apply reachable_Inv in Hr.
  destruct (step_view _ _ _ Hr Hstep) as [Hv _]. rewrite Hv in *.
  destruct ev; cbn in *; try contradiction.
  - left. eauto.
  - right. exists ps. split; [reflexivity|].
    rewrite hasPreview_nonempty in *.
    destruct (previews (comp w)); cbn in *; [|contradiction].
    destruct ps; cbn in *; [contradiction|].
    repeat split. discriminate.
  - left. eauto.
Qed.

Lemma view_changes_only_by_selection_or_arrival_witness :
  match step sample_world (PreviewsChange ["http://localhost:5173"]) with
  | Some w' =>
      (exists v, (PreviewsChange ["http://localhost:5173"] = SelectView v \/
                  PreviewsChange ["http://localhost:5173"] = CurrentViewChange v) /\
                 currentView (comp w') = v) \/
      (exists ps, PreviewsChange ["http://localhost:5173"] = PreviewsChange ps /\
                  previews (comp sample_world) = [] /\ ps <> [] /\
                  currentView (comp w') = preview)
  | None => False
  end.
Proof.
  destruct (step sample_world (PreviewsChange ["http://localhost:5173"]))
    as [w'|] eqn:E.
  - apply (view_changes_only_by_selection_or_arrival sample_world w' _
             reachable_sample E).
    vm_compute in E. injection E as <-. vm_compute. discriminate.
  - vm_compute in E. discriminate.
Defined.

Lemma click_run_agrees_with_exec_witness :
  run (mkWorld sample_props sample_state (hasPreview sample_state) [])
      (sync_events (sample_env (Resolved tt) 30) sample_state sample_click) =
  Some (mkWorld sample_props
          (snd (exec (sample_env (Resolved tt) 30)
                  (handleSyncFiles (Some sample_click)) sample_state))
          (hasPreview sample_state) []).
Proof.
  apply (click_run_agrees_with_exec sample_props sample_state sample_click
           (sample_env (Resolved tt) 30)).
  vm_compute. reflexivity.
Defined.
